(** * Trana: incident lifecycle, connection registry, escalation timer

    A shallow embedding of the server (server.ts) and of the dashboard's
    [acceptIncident] and [resolveIncident] callbacks (App component),
    followed by the properties checked against them.

    Conventions of the embedding
    - SQLite timestamps ('YYYY-MM-DD HH:MM:SS', UTC, one-second resolution)
      are the number of seconds since the epoch, a [Z].
    - A callback of the event loop (an HTTP handler, a socket handler, the
      timer callback) runs to completion without interleaving. An HTTP
      handler is given one clock reading for its statements. The timer
      callback, whose UPDATEs select rows by age, is given one reading per
      statement: SQLite evaluates 'now' once for each statement it runs.
    - Foreign keys are enforced (better-sqlite3 opens the database with
      them on): [reporter_id] and [responder_id] are NULL or the id of a
      [users] row whenever a statement assigns them.
    - REAL columns and JavaScript numbers are rationals.
    - The [:id] segment of a route is the integer it denotes (SQLite compares
      it with the INTEGER column by numeric affinity).
    - A WebSocket object is its identity (a [nat]); its mutable [readyState]
      lives in the server state, so the registry and the per-connection
      closure alias the same object. *)

From Stdlib Require Import ZArith List String Bool Lia QArith.
Import ListNotations.
Open Scope string_scope.
Open Scope list_scope.
Open Scope Z_scope.

(** ** JavaScript values, as far as the handlers inspect them *)

Inductive JsValue : Type :=
| JsUndefined
| JsNull
| JsNumber (q : Q)
| JsString (s : string)
| JsObject.

Definition js_int (z : Z) : JsValue := JsNumber (inject_Z z).

(** ToBoolean: undefined, null, 0 and the empty string are falsy. *)
Definition truthy (v : JsValue) : bool :=
  match v with
  | JsUndefined | JsNull => false
  | JsNumber q => negb (Qeq_bool q 0)
  | JsString s => negb (String.eqb s "")
  | JsObject => true
  end.

(** [a === b] on the values above (objects are never compared here). *)
Definition strict_eq (a b : JsValue) : bool :=
  match a, b with
  | JsUndefined, JsUndefined => true
  | JsNull, JsNull => true
  | JsNumber x, JsNumber y => Qeq_bool x y
  | JsString x, JsString y => String.eqb x y
  | _, _ => false
  end.

(** [a || b] *)
Definition js_or (a b : JsValue) : JsValue := if truthy a then a else b.

Inductive JsError : Type :=
| ReferenceError (name : string)
| TypeError (message : string)
| SqliteError (message : string).

(** ** The database tables (columns the modelled statements read or write) *)

Module users.
Record row : Type := mk {
  id : Z;
  role : string;
  status : string
}.
End users.

Module incidents.
Record row : Type := mk {
  id : Z;
  type : string;
  status : string;
  severity : string;
  lat : Q;
  lng : Q;
  reporter_id : option Z;
  responder_id : option Z;
  created_at : Z;
  updated_at : Z
}.

Definition set_status (s : string) (now : Z) (r : row) : row :=
  mk (id r) (type r) s (severity r) (lat r) (lng r)
     (reporter_id r) (responder_id r) (created_at r) now.

Definition set_accepted (responder : Z) (now : Z) (r : row) : row :=
  mk (id r) (type r) "accepted" (severity r) (lat r) (lng r)
     (reporter_id r) (Some responder) (created_at r) now.
End incidents.

(** ** Sockets and the registry [clients : Map<number, WebSocket>] *)

Definition WebSocket : Type := nat.

Inductive ReadyState : Type := CONNECTING | OPEN | CLOSING | CLOSED.

Definition is_open (r : ReadyState) : bool :=
  match r with OPEN => true | _ => false end.

(** A JavaScript [Map] iterates in insertion order; [set] on a present key
    keeps the key's position and replaces its value. *)
Definition JsMap (V : Type) : Type := list (Z * V).

Fixpoint map_get {V} (k : Z) (m : JsMap V) : option V :=
  match m with
  | [] => None
  | (k', v) :: rest => if k' =? k then Some v else map_get k rest
  end.

Fixpoint map_set {V} (k : Z) (v : V) (m : JsMap V) : JsMap V :=
  match m with
  | [] => [(k, v)]
  | (k', v') :: rest =>
      if k' =? k then (k, v) :: rest else (k', v') :: map_set k v rest
  end.

Definition map_delete {V} (k : Z) (m : JsMap V) : JsMap V :=
  filter (fun e => negb (fst e =? k)) m.

(** ** Messages put on a socket (the argument of JSON.stringify) *)

Record Stats : Type := mkStats {
  totalIncidents : Z;
  activeResponders : Z;
  resolvedToday : Z;
  safetyScore : Z
}.

Inductive Message : Type :=
| new_incident (id : Z) (type : JsValue) (lat lng : JsValue)
               (severity language : JsValue) (status : string)
               (created_at : Z)
| incident_accepted (incidentId : Z) (responderId : Z)
    (** [incident = None]: the property is [undefined] and JSON.stringify
        leaves it out. *)
| incident_updated (incident : option incidents.row)
| stats_update (stats : Stats).

Definition Delivery : Type := (WebSocket * Message)%type.

(** ** Server state *)

Record Server : Type := mkServer {
  db_users : list users.row;
  db_incidents : list incidents.row;
  (** sqlite_sequence entry of [incidents] (AUTOINCREMENT). *)
  incidents_seq : Z;
  clients : JsMap WebSocket;
  readyState : WebSocket -> ReadyState;
  (** [let userId: number | null] of each connection's closure. *)
  userId : WebSocket -> option Z
}.

(** ** Callbacks: state, messages sent so far, and exceptions *)

Inductive Outcome (A : Type) : Type :=
| Return (a : A)
| Throw (e : JsError).
Arguments Return {A} a.
Arguments Throw {A} e.

Definition M (A : Type) : Type :=
  Server -> Outcome A * Server * list Delivery.

Definition ret {A} (a : A) : M A := fun s => (Return a, s, []).

Definition bind {A B} (m : M A) (k : A -> M B) : M B :=
  fun s =>
    match m s with
    | (Return a, s1, out1) =>
        let '(o, s2, out2) := k a s1 in (o, s2, out1 ++ out2)
    | (Throw e, s1, out1) => (Throw e, s1, out1)
    end.

Definition throw {A} (e : JsError) : M A := fun s => (Throw e, s, []).

Definition get_server : M Server := fun s => (Return s, s, []).

Definition put_server (s' : Server) : M unit := fun _ => (Return tt, s', []).

(** [ws.send(JSON.stringify(m))] *)
Definition ws_send (ws : WebSocket) (m : Message) : M unit :=
  fun s => (Return tt, s, [(ws, m)]).

Declare Scope js_scope.
Delimit Scope js_scope with js.
Notation "x <- m ;; k" := (bind m (fun x => k))
  (at level 61, m at next level, right associativity) : js_scope.
Notation "m ;; k" := (bind m (fun _ => k))
  (at level 61, right associativity) : js_scope.
Open Scope js_scope.

Fixpoint forEach {A} (l : list A) (f : A -> M unit) : M unit :=
  match l with
  | [] => ret tt
  | x :: rest => f x ;; forEach rest f
  end.

(** [forEach] with the index it passes to the callback as second argument,
    counting from [k]. *)
Fixpoint forEach_from {A} (k : nat) (l : list A) (f : A -> nat -> M unit)
  : M unit :=
  match l with
  | [] => ret tt
  | x :: rest => f x k ;; forEach_from (S k) rest f
  end.

(** The three components of a callback's run. *)
Definition result_of {R} (r : R * Server * list Delivery) : R := fst (fst r).
Definition server_of {R} (r : R * Server * list Delivery) : Server := snd (fst r).
Definition sent_of {R} (r : R * Server * list Delivery) : list Delivery := snd r.

Definition with_incidents (s : Server) (rows : list incidents.row) (seq : Z) : Server :=
  mkServer (db_users s) rows seq (clients s) (readyState s) (userId s).

Definition with_clients (s : Server) (m : JsMap WebSocket) : Server :=
  mkServer (db_users s) (db_incidents s) (incidents_seq s) m
           (readyState s) (userId s).

Definition with_readyState (s : Server) (ws : WebSocket) (r : ReadyState) : Server :=
  mkServer (db_users s) (db_incidents s) (incidents_seq s) (clients s)
           (fun w => if Nat.eqb w ws then r else readyState s w) (userId s).

Definition with_userId (s : Server) (ws : WebSocket) (u : option Z) : Server :=
  mkServer (db_users s) (db_incidents s) (incidents_seq s) (clients s)
           (readyState s) (fun w => if Nat.eqb w ws then u else userId s w).

(** ** SQL statements on [incidents] and [users] *)

(** [UPDATE incidents SET ... WHERE ...]; returns [changes], the number of
    rows the WHERE clause matched. *)
Definition sql_update (cond : incidents.row -> bool)
    (assign : incidents.row -> incidents.row) : M Z :=
  fun s =>
    let rows := db_incidents s in
    (Return (Z.of_nat (List.length (filter cond rows))),
     with_incidents s (map (fun r => if cond r then assign r else r) rows)
                    (incidents_seq s),
     []).

(** [SELECT * FROM incidents WHERE id = ?] with [.get()]: the first row or
    [undefined]. *)
Definition select_incident (id : Z) : M (option incidents.row) :=
  fun s => (Return (find (fun r => incidents.id r =? id) (db_incidents s)), s, []).

(** [SELECT * FROM incidents WHERE ...] with [.all()], in rowid order. *)
Definition select_incidents (cond : incidents.row -> bool) : M (list incidents.row) :=
  fun s => (Return (filter cond (db_incidents s)), s, []).

Definition select_users (cond : users.row -> bool) : M (list users.row) :=
  fun s => (Return (filter cond (db_users s)), s, []).

Definition has_user (id : Z) (s : Server) : bool :=
  existsb (fun u => users.id u =? id) (db_users s).

(** [FOREIGN KEY(...) REFERENCES users(id)]: NULL, or the id of a row of
    [users]. *)
Definition references_user (s : Server) (key : option Z) : bool :=
  match key with
  | Some id => has_user id s
  | None => true
  end.

(** An UPDATE whose SET list assigns the foreign-key column [key]: when one
    of the rows it would write breaks the constraint, the statement throws
    and writes nothing. *)
Definition sql_update_fk (key : incidents.row -> option Z)
    (cond : incidents.row -> bool) (assign : incidents.row -> incidents.row)
  : M Z :=
  fun s =>
    if forallb (fun r => references_user s (key (assign r)))
               (filter cond (db_incidents s))
    then sql_update cond assign s
    else (Throw (SqliteError "FOREIGN KEY constraint failed"), s, []).

Definition max_rowid (rows : list incidents.row) : Z :=
  fold_right (fun r acc => Z.max (incidents.id r) acc) 0 rows.

(** The largest rowid, 2^63 - 1. *)
Definition rowid_limit : Z := 9223372036854775807.

(** [INSERT INTO incidents (type, lat, lng, reporter_id, severity)]: the
    other columns take their defaults; AUTOINCREMENT picks one more than
    the largest rowid ever used and fails when that one was the largest
    possible; the statement also fails, writing nothing, when [reporter_id]
    breaks its foreign key. Returns [lastInsertRowid]. *)
Definition sql_insert_incident (type : string) (lat lng : Q)
    (reporter : option Z) (severity : string) (now : Z) : M Z :=
  fun s =>
    let used := Z.max (incidents_seq s) (max_rowid (db_incidents s)) in
    if rowid_limit <=? used
    then (Throw (SqliteError "database or disk is full"), s, [])
    else if references_user s reporter then
      let rowid := used + 1 in
      let r := incidents.mk rowid type "triggered" severity lat lng
                            reporter None now now in
      (Return rowid, with_incidents s (db_incidents s ++ [r]) rowid, [])
    else (Throw (SqliteError "FOREIGN KEY constraint failed"), s, []).

Definition text_in (x : string) (l : list string) : bool :=
  existsb (String.eqb x) l.

(** ** Delivery *)

(** The pattern of lines 262-265 and 316-323:
    [const c = clients.get(id); if (c && c.readyState === OPEN) c.send(m)]. *)
Definition send_to (id : Z) (m : Message) : M unit :=
  s <- get_server ;;
  match map_get id (clients s) with
  | Some client =>
      if is_open (readyState s client) then ws_send client m else ret tt
  | None => ret tt
  end.

Definition responder_roles : list string :=
  ["doctor"; "police"; "volunteer"; "command"; "admin"].

Definition is_active_responder (u : users.row) : bool :=
  text_in (users.role u) responder_roles && String.eqb (users.status u) "active".

Definition broadcastToResponders (data : Message) : M unit :=
  responders <- select_users is_active_responder ;;
  forEach responders (fun r => send_to (users.id r) data).

(** [date(t, '+5 hours', '30 minutes')] as a day number. *)
Definition ist_date (t : Z) : Z := (t + 19800) / 86400.

Definition count {A} (p : A -> bool) (l : list A) : Z :=
  Z.of_nat (List.length (filter p l)).

Definition compute_stats (s : Server) (now : Z) : Stats :=
  mkStats
    (Z.of_nat (List.length (db_incidents s)))
    (count (fun u => text_in (users.role u) ["doctor"; "police"; "volunteer"]
                     && String.eqb (users.status u) "active") (db_users s))
    (count (fun r => String.eqb (incidents.status r) "resolved"
                     && (ist_date (incidents.updated_at r) =? ist_date now))
           (db_incidents s))
    84.

Definition broadcastStats (now : Z) : M unit :=
  s <- get_server ;;
  let broadcastData := stats_update (compute_stats s now) in
  forEach (clients s) (fun entry =>
    let client := snd entry in
    if is_open (readyState s client) then ws_send client broadcastData
    else ret tt).

(** ** The escalation timer (setInterval callback, every 30 s) *)

Definition age (now : Z) (r : incidents.row) : Z := now - incidents.created_at r.

Definition tier2_where (now : Z) (r : incidents.row) : bool :=
  String.eqb (incidents.status r) "triggered"
  && ((60 <=? age now r) && (age now r <=? 119)).

Definition tier3_where (now : Z) (r : incidents.row) : bool :=
  String.eqb (incidents.status r) "escalating"
  && ((120 <=? age now r) && (age now r <=? 179)).

Definition tier4_where (now : Z) (r : incidents.row) : bool :=
  String.eqb (incidents.status r) "hospital_notified"
  && (180 <? age now r).

Definition escalated_tiers : list string :=
  ["escalating"; "hospital_notified"; "command_alerted"].

Definition in_escalated_tier (r : incidents.row) : bool :=
  text_in (incidents.status r) escalated_tiers.

(** The clock as one run of the callback reads it: once by each UPDATE
    and once by each call of [broadcastStats] (the k-th call of the run). *)
Record TickClock : Type := mkTickClock {
  tier2_now : Z;
  tier3_now : Z;
  tier4_now : Z;
  stats_now : nat -> Z
}.

(** A run in which every statement reads the same second. *)
Definition same_second (now : Z) : TickClock :=
  mkTickClock now now now (fun _ => now).

Definition tier2_statement (now : Z) : M Z :=
  sql_update (tier2_where now) (incidents.set_status "escalating" now).

Definition tier3_statement (now : Z) : M Z :=
  sql_update (tier3_where now) (incidents.set_status "hospital_notified" now).

Definition tier4_statement (now : Z) : M Z :=
  sql_update (tier4_where now) (incidents.set_status "command_alerted" now).

Definition escalation_tick (clk : TickClock) : M unit :=
  tier2 <- tier2_statement (tier2_now clk) ;;
  tier3 <- tier3_statement (tier3_now clk) ;;
  tier4 <- tier4_statement (tier4_now clk) ;;
  if (tier2 >? 0) || (tier3 >? 0) || (tier4 >? 0) then
    updatedIncidents <- select_incidents in_escalated_tier ;;
    forEach_from 0 updatedIncidents (fun inc k =>
      broadcastToResponders (incident_updated (Some inc)) ;;
      broadcastStats (stats_now clk k))
  else ret tt.

(** ** WebSocket handlers (wss.on('connection', ...)) *)

Definition id_truthy (id : Z) : bool := negb (id =? 0).

Definition on_connection (ws : WebSocket) : M unit :=
  s <- get_server ;;
  put_server (with_userId (with_readyState s ws OPEN) ws None).

(** An [auth] message. [decoded] is [jwt.verify(...).id], or [None] when
    [jwt.verify] throws (the exception is caught and ignored). *)
Definition on_message_auth (ws : WebSocket) (decoded : option Z) : M unit :=
  match decoded with
  | None => ret tt
  | Some id =>
      s <- get_server ;;
      let s1 := with_userId s ws (Some id) in
      if id_truthy id then put_server (with_clients s1 (map_set id ws (clients s1)))
      else put_server s1
  end.

Definition on_close (ws : WebSocket) : M unit :=
  s <- get_server ;;
  let s1 := with_readyState s ws CLOSED in
  match userId s1 ws with
  | Some id =>
      if id_truthy id then put_server (with_clients s1 (map_delete id (clients s1)))
      else put_server s1
  | None => put_server s1
  end.

(** ** HTTP handlers *)

Inductive Body : Type :=
| json_id (id : Z)          (** [res.json({ id: incidentId })] *)
| json_status_ok.           (** [res.json({ status: 'ok' })] *)

(** Identifier resolution: a name bound in no enclosing scope (and absent
    from the global object) raises a ReferenceError. *)
Definition Scope : Type := list (string * JsValue).

Fixpoint scope_lookup (x : string) (sc : Scope) : option JsValue :=
  match sc with
  | [] => None
  | (y, v) :: rest => if String.eqb y x then Some v else scope_lookup x rest
  end.

Definition resolve_identifier (sc : Scope) (x : string) : M JsValue :=
  match scope_lookup x sc with
  | Some v => ret v
  | None => throw (ReferenceError x)
  end.

(** Body of [POST /api/incidents] with its fields present. *)
Record CreateBody : Type := mkCreateBody {
  cb_type : string;
  cb_lat : Q;
  cb_lng : Q;
  cb_reporterId : option Z;
  cb_severity : string
}.

Definition js_opt_int (o : option Z) : JsValue :=
  match o with Some z => js_int z | None => JsNull end.

(** Names in scope at line 299: the handler's parameters and locals, then
    those of [startServer], then the module's declarations and imports. *)
Definition scope_post_incidents (b : CreateBody) (incidentId : Z) : Scope :=
  [ ("req", JsObject); ("res", JsObject);
    ("type", JsString (cb_type b)); ("lat", JsNumber (cb_lat b));
    ("lng", JsNumber (cb_lng b)); ("reporterId", js_opt_int (cb_reporterId b));
    ("severity", JsString (cb_severity b));
    ("result", JsObject); ("incidentId", js_int incidentId);
    ("app", JsObject); ("server", JsObject); ("wss", JsObject);
    ("clients", JsObject); ("broadcastToResponders", JsObject);
    ("broadcastStats", JsObject); ("PORT", JsObject);
    ("db", JsObject); ("JWT_SECRET", JsObject); ("seedUsers", JsObject);
    ("startServer", JsObject);
    ("express", JsObject); ("createServer", JsObject);
    ("WebSocketServer", JsObject); ("WebSocket", JsObject);
    ("createViteServer", JsObject); ("path", JsObject);
    ("Database", JsObject); ("jwt", JsObject); ("bcrypt", JsObject);
    ("dotenv", JsObject) ].

Definition post_incidents (b : CreateBody) (now : Z) : M Body :=
  incidentId <- sql_insert_incident (cb_type b) (cb_lat b) (cb_lng b)
                                    (cb_reporterId b) (cb_severity b) now ;;
  language <- resolve_identifier (scope_post_incidents b incidentId) "language" ;;
  broadcastToResponders
    (new_incident incidentId (JsString (cb_type b)) (JsNumber (cb_lat b))
                  (JsNumber (cb_lng b)) (JsString (cb_severity b))
                  (js_or language (JsString "en")) "triggered" now) ;;
  broadcastStats now ;;
  ret (json_id incidentId).

Definition has_id (id : Z) (r : incidents.row) : bool := incidents.id r =? id.

(** [clients.get(incident.reporter_id)] finds nothing for a NULL reporter. *)
Definition notify_reporter (reporter : option Z) (m : Message) : M unit :=
  match reporter with
  | Some u => send_to u m
  | None => ret tt
  end.

Definition post_incidents_accept (id : Z) (responderId : Z) (now : Z) : M Body :=
  sql_update_fk incidents.responder_id
                (has_id id) (incidents.set_accepted responderId now) ;;
  incident <- select_incident id ;;
  match incident with
  | None =>
      throw (TypeError "Cannot read properties of undefined (reading 'reporter_id')")
  | Some inc =>
      notify_reporter (incidents.reporter_id inc)
                      (incident_accepted id responderId) ;;
      broadcastToResponders (incident_updated (Some inc)) ;;
      broadcastStats now ;;
      ret json_status_ok
  end.

(** [userId] is [req.body.userId] as the dashboard sends it; the handler
    reads only [req.params.id]. *)
Definition post_incidents_resolve (id : Z) (userId : JsValue) (now : Z) : M Body :=
  sql_update (has_id id) (incidents.set_status "resolved" now) ;;
  incident <- select_incident id ;;
  broadcastToResponders (incident_updated incident) ;;
  broadcastStats now ;;
  ret json_status_ok.

(** Express answers 200 with the handler's JSON, and 500 when the handler
    throws. *)
Record Response : Type := mkResponse {
  statusCode : Z;
  body : option Body
}.

Definition express (h : M Body) (s : Server) : Response * Server * list Delivery :=
  match h s with
  | (Return b, s', out) => (mkResponse 200 (Some b), s', out)
  | (Throw _, s', out) => (mkResponse 500 None, s', out)
  end.

(** [res.ok] of fetch *)
Definition ok (r : Response) : bool :=
  (200 <=? statusCode r) && (statusCode r <=? 299).

(** ** The dashboard's callbacks (App component) *)

Module App.
Record User : Type := mkUser {
  id : Z;
  role : string
}.

(** An element of the [incidents] state: rows fetched from the server
    carry [reporter_id] and [responder_id] (a number or null); objects
    received in a [new_incident] message have neither. *)
Record Incident : Type := mkIncident {
  incident_id : Z;
  status : string;
  reporter_id : JsValue;
  responder_id : JsValue
}.

Record State : Type := mkState {
  user : option User;
  incidents : list Incident
}.

Inductive Effect : Type :=
| addToast (message : string) (type : string)
| fetchIncidents
| fetchStats.

(** [user?.id] *)
Definition user_id (c : State) : JsValue :=
  match user c with Some u => js_int (id u) | None => JsUndefined end.

(** [user?.role !== 'admin'] *)
Definition not_admin (c : State) : bool :=
  match user c with
  | Some u => negb (String.eqb (role u) "admin")
  | None => true
  end.

(** [incident?.f] *)
Definition field (f : Incident -> JsValue) (i : option Incident) : JsValue :=
  match i with Some x => f x | None => JsUndefined end.

(** [['doctor', 'police', 'volunteer'].includes(user?.role || '')] *)
Definition may_accept (c : State) : bool :=
  match user c with
  | Some u => text_in (role u) ["doctor"; "police"; "volunteer"]
  | None => false
  end.

Definition acceptIncident (c : State) (id : Z) (now : Z) (s : Server)
  : list Effect * Server * list Delivery :=
  match user c with
  | Some u =>
      if may_accept c then
        let '(res, s', out) := express (post_incidents_accept id (App.id u) now) s in
        if ok res then
          ([addToast "Incident accepted. Proceed to location." "success";
            fetchIncidents],
           s', out)
        else ([], s', out)
      else ([addToast "Only responders can accept dispatches." "error"], s, [])
  | None => ([addToast "Only responders can accept dispatches." "error"], s, [])
  end.

Definition resolveIncident (c : State) (id : Z) (now : Z) (s : Server)
  : list Effect * Server * list Delivery :=
  let incident := find (fun i => incident_id i =? id) (incidents c) in
  let isResponder := strict_eq (field responder_id incident) (user_id c) in
  let isReporter := strict_eq (field reporter_id incident) (user_id c) in
  if negb isResponder && negb isReporter && not_admin c then
    ([addToast "Only the assigned responder or the reporter can resolve this." "error"],
     s, [])
  else
    let '(res, s', out) := express (post_incidents_resolve id (user_id c) now) s in
    if ok res then
      ([addToast "Incident marked as resolved." "success"; fetchIncidents; fetchStats],
       s', out)
    else ([], s', out).
End App.

(** ** The callbacks the event loop can run *)

Inductive Event : Type :=
| connection (ws : WebSocket)
| message_auth (ws : WebSocket) (decoded : option Z)
| close (ws : WebSocket)
| tick (clk : TickClock)
| http_create (b : CreateBody) (now : Z)
| http_accept (id responderId now : Z)
| http_resolve (id : Z) (userId : JsValue) (now : Z).

Definition after_event (e : Event) (s : Server) : Server :=
  match e with
  | connection ws => server_of (on_connection ws s)
  | message_auth ws decoded => server_of (on_message_auth ws decoded s)
  | close ws => server_of (on_close ws s)
  | tick clk => server_of (escalation_tick clk s)
  | http_create b now => server_of (express (post_incidents b now) s)
  | http_accept id responderId now =>
      server_of (express (post_incidents_accept id responderId now) s)
  | http_resolve id userId now =>
      server_of (express (post_incidents_resolve id userId now) s)
  end.

Definition after_events (es : list Event) (s : Server) : Server :=
  fold_left (fun s' e => after_event e s') es s.

(** * Definitions used in the statements *)

(** ** What the delivery functions put on the wire *)

Definition delivered_to (s : Server) (id : Z) (m : Message) : list Delivery :=
  match map_get id (clients s) with
  | Some client => if is_open (readyState s client) then [(client, m)] else []
  | None => []
  end.

Definition responders_out (s : Server) (data : Message) : list Delivery :=
  flat_map (fun r => delivered_to s (users.id r) data)
           (filter is_active_responder (db_users s)).

Definition open_entries (s : Server) : list (Z * WebSocket) :=
  filter (fun e => is_open (readyState s (snd e))) (clients s).

Definition stats_out (s : Server) (now : Z) : list Delivery :=
  map (fun e => (snd e, stats_update (compute_stats s now))) (open_entries s).

Definition notify_out (s : Server) (reporter : option Z) (m : Message) : list Delivery :=
  match reporter with
  | Some u => delivered_to s u m
  | None => []
  end.

(** ** The effect of the statements on the rows *)

Definition apply_where (cond : incidents.row -> bool)
    (assign : incidents.row -> incidents.row) (r : incidents.row) : incidents.row :=
  if cond r then assign r else r.

Definition after_update (s : Server) (cond : incidents.row -> bool)
    (assign : incidents.row -> incidents.row) : Server :=
  with_incidents s (map (apply_where cond assign) (db_incidents s))
                 (incidents_seq s).

(** The INSERT goes through: a rowid is left and the reporter passes the
    foreign key. *)
Definition can_insert (s : Server) (reporter : option Z) : bool :=
  (Z.max (incidents_seq s) (max_rowid (db_incidents s)) <? rowid_limit)
  && references_user s reporter.

(** What each of the timer's statements does to one row. *)
Definition tier2_row (now : Z) : incidents.row -> incidents.row :=
  apply_where (tier2_where now) (incidents.set_status "escalating" now).

Definition tier3_row (now : Z) : incidents.row -> incidents.row :=
  apply_where (tier3_where now) (incidents.set_status "hospital_notified" now).

Definition tier4_row (now : Z) : incidents.row -> incidents.row :=
  apply_where (tier4_where now) (incidents.set_status "command_alerted" now).

(** What one tick does to one row: the three statements in their order,
    each at its own reading of the clock. *)
Definition tick_row (clk : TickClock) (r : incidents.row) : incidents.row :=
  tier4_row (tier4_now clk) (tier3_row (tier3_now clk) (tier2_row (tier2_now clk) r)).

(** One of the three statements selects the row. *)
Definition escalates (clk : TickClock) (r : incidents.row) : bool :=
  tier2_where (tier2_now clk) r
  || tier3_where (tier3_now clk) (tier2_row (tier2_now clk) r)
  || tier4_where (tier4_now clk)
       (tier3_row (tier3_now clk) (tier2_row (tier2_now clk) r)).

Definition after_tick (clk : TickClock) (s : Server) : Server :=
  with_incidents s (map (tick_row clk) (db_incidents s)) (incidents_seq s).

(** A list with the positions of its elements, counted from [k]: what
    [forEach] hands to its callback. *)
Fixpoint indexed {A} (k : nat) (l : list A) : list (nat * A) :=
  match l with
  | [] => []
  | x :: rest => (k, x) :: indexed (S k) rest
  end.

(** ** Observations on a tick *)

Definition is_stats_update (d : Delivery) : bool :=
  match snd d with stats_update _ => true | _ => false end.


Definition status_at (i : nat) (s : Server) : option string :=
  option_map incidents.status (nth_error (db_incidents s) i).


(** ** Tier order and runs of ticks *)

Inductive tier_next : string -> string -> Prop :=
| next_escalating : tier_next "triggered" "escalating"
| next_hospital_notified : tier_next "escalating" "hospital_notified"
| next_command_alerted : tier_next "hospital_notified" "command_alerted".

(** One tick's effect on a row: the same incident, with the same status or
    the next tier. *)
Definition row_step (r r' : incidents.row) : Prop :=
  incidents.id r' = incidents.id r /\
  (incidents.status r' = incidents.status r \/
   tier_next (incidents.status r) (incidents.status r')).


(** The states after each tick of a run. *)
Fixpoint run_ticks (clks : list TickClock) (s : Server) : list Server :=
  match clks with
  | [] => []
  | clk :: rest =>
      let s' := server_of (escalation_tick clk s) in
      s' :: run_ticks rest s'
  end.

(** The states after each statement of each tick of a run: three per tick. *)
Fixpoint run_statements (clks : list TickClock) (s : Server) : list Server :=
  match clks with
  | [] => []
  | clk :: rest =>
      let s2 := server_of (tier2_statement (tier2_now clk) s) in
      let s3 := server_of (tier3_statement (tier3_now clk) s2) in
      let s4 := server_of (tier4_statement (tier4_now clk) s3) in
      s2 :: s3 :: s4 :: run_statements rest (server_of (escalation_tick clk s))
  end.


(** ** Sample states *)

(** A tick during which the second changes from 119 to 120 between the
    first UPDATE and the second. *)
Definition rollover : TickClock := mkTickClock 119 120 120 (fun _ => 120).

Definition all_open : WebSocket -> ReadyState := fun _ => OPEN.
Definition no_userId : WebSocket -> option Z := fun _ => None.

(** The seeded users: admin, doctor, police, civilian. *)
Definition seed_users : list users.row :=
  [ users.mk 1 "admin" "active"; users.mk 2 "doctor" "active";
    users.mk 3 "police" "active"; users.mk 4 "civilian" "active" ].

Definition sample_incident (id : Z) (st : string) (responder : option Z)
    (created : Z) : incidents.row :=
  incidents.mk id "SOS" st "critical" (515 # 10) (-9 # 100) (Some 4)
               responder created created.

Definition empty_registry : Server :=
  mkServer seed_users [] 0 [] all_open no_userId.

(** The doctor on socket 7 and the civilian on socket 8. *)
Definition civilian_online : Server :=
  mkServer seed_users [] 0 [(2, 7%nat); (4, 8%nat)] all_open no_userId.

Definition two_due : Server :=
  mkServer seed_users
    [ sample_incident 1 "triggered" None 0;
      sample_incident 2 "triggered" None 10 ]
    2 [(2, 7%nat)] all_open no_userId.

Definition overdue : Server :=
  mkServer seed_users [ sample_incident 1 "triggered" None 0 ] 1 []
           all_open no_userId.

Definition mixed : Server :=
  mkServer seed_users
    [ sample_incident 1 "triggered" None 0;
      sample_incident 2 "accepted" (Some 2) 0 ]
    2 [] all_open no_userId.

Definition accepted_once : Server :=
  mkServer seed_users [ sample_incident 1 "accepted" (Some 2) 0 ] 1
           [(2, 7%nat)] all_open no_userId.

Definition police_dashboard : App.State :=
  App.mkState (Some (App.mkUser 3 "police"))
    [ App.mkIncident 1 "accepted" (js_int 4) (js_int 2) ].

Definition sos_body : CreateBody :=
  mkCreateBody "SOS" (515 # 10) (-9 # 100) (Some 4) "critical".

(** * Further callbacks *)

(** ** Read-only routes *)

(** [WHERE status != 'resolved' AND status != 'closed'] *)
Definition is_active_status (r : incidents.row) : bool :=
  negb (String.eqb (incidents.status r) "resolved")
  && negb (String.eqb (incidents.status r) "closed").

(** [GET /api/incidents/active]: the rows handed to [res.json]. *)
Definition get_incidents_active : M (list incidents.row) :=
  select_incidents is_active_status.

(** [SELECT COUNT( * ) as count FROM ... WHERE ...] with [.get()]. *)
Definition sql_count_incidents (cond : incidents.row -> bool) : M Z :=
  fun s => (Return (Z.of_nat (List.length (filter cond (db_incidents s)))), s, []).

Definition sql_count_users (cond : users.row -> bool) : M Z :=
  fun s => (Return (Z.of_nat (List.length (filter cond (db_users s)))), s, []).

(** [GET /api/stats/summary] (lines 363-375), written out as the route has
    it: three counts and the fixed score. *)
Definition get_stats_summary (now : Z) : M Stats :=
  total <- sql_count_incidents (fun _ => true) ;;
  active <- sql_count_users (fun u =>
              text_in (users.role u) ["doctor"; "police"; "volunteer"]
              && String.eqb (users.status u) "active") ;;
  resolved <- sql_count_incidents (fun r =>
              String.eqb (incidents.status r) "resolved"
              && (ist_date (incidents.updated_at r) =? ist_date now)) ;;
  ret (mkStats total active resolved 84).

(** ** What a callback sends *)

Definition sent_by_event (e : Event) (s : Server) : list Delivery :=
  match e with
  | connection ws => sent_of (on_connection ws s)
  | message_auth ws decoded => sent_of (on_message_auth ws decoded s)
  | close ws => sent_of (on_close ws s)
  | tick clk => sent_of (escalation_tick clk s)
  | http_create b now => sent_of (express (post_incidents b now) s)
  | http_accept id responderId now =>
      sent_of (express (post_incidents_accept id responderId now) s)
  | http_resolve id userId now =>
      sent_of (express (post_incidents_resolve id userId now) s)
  end.

(** ** Location updates (the second branch of ws.on('message')) *)

(** The columns [lat], [lng], [last_seen] of a [users] row. *)
Record Position : Type := mkPosition {
  pos_lat : Q;
  pos_lng : Q;
  last_seen : Z
}.

(** The server with those columns, kept by user id beside the rows of
    [db_users]; an id without entry still has the values of its INSERT. *)
Record Tracking : Type := mkTracking {
  core : Server;
  positions : JsMap Position
}.

Inductive Wire : Type :=
| core_message (m : Message)
| user_location_update (userId : Z) (lat lng : Q).

(** [UPDATE users SET lat = ?, lng = ?, last_seen = CURRENT_TIMESTAMP
    WHERE id = ?] *)
Definition sql_update_position (id : Z) (lat lng : Q) (now : Z) (t : Tracking)
  : Tracking :=
  if has_user id (core t)
  then mkTracking (core t) (map_set id (mkPosition lat lng now) (positions t))
  else t.

(** [SELECT id FROM users WHERE role IN ('admin', 'command')] *)
Definition is_admin_or_command (u : users.row) : bool :=
  text_in (users.role u) ["admin"; "command"].

(** A [location_update] message on connection [ws] with numeric [lat] and
    [lng]; returns the state and what was sent. *)
Definition on_message_location_update (ws : WebSocket) (lat lng : Q) (now : Z)
    (t : Tracking) : Tracking * list (WebSocket * Wire) :=
  match userId (core t) ws with
  | Some sender =>
      if id_truthy sender then
        let t' := sql_update_position sender lat lng now t in
        let locationData := user_location_update sender lat lng in
        let admins := filter is_admin_or_command (db_users (core t')) in
        (t',
         flat_map (fun admin =>
           match map_get (users.id admin) (clients (core t')) with
           | Some client =>
               if is_open (readyState (core t') client)
                  && negb (users.id admin =? sender)
               then [(client, locationData)] else []
           | None => []
           end) admins)
      else (t, [])
  | None => (t, [])
  end.

(** ** The dashboard's socket handler (ws.onmessage) and its list of incidents *)

Module Inbox.

(** An incident as the dashboard keeps it, from a row sent by the server
    (a NULL column arrives as [null]). *)
Definition of_row (r : incidents.row) : App.Incident :=
  App.mkIncident (incidents.id r) (incidents.status r)
                 (js_opt_int (incidents.reporter_id r))
                 (js_opt_int (incidents.responder_id r)).

(** The object of a [new_incident] message has no [reporter_id] and no
    [responder_id]. *)
Definition of_new_incident (id : Z) (status : string) : App.Incident :=
  App.mkIncident id status JsUndefined JsUndefined.

Definition same_id (a b : App.Incident) : bool :=
  App.incident_id a =? App.incident_id b.

(** [prev => prev.find(i => i.id === inc.id) ? prev : [inc, ...prev]] *)
Definition add_incident (inc : App.Incident) (prev : list App.Incident)
  : list App.Incident :=
  match find (fun i => same_id i inc) prev with
  | Some _ => prev
  | None => inc :: prev
  end.

(** [prev => prev.map(i => i.id === data.incident.id ? data.incident : i)];
    with [data.incident] undefined the callback throws on the first
    element. *)
Definition replace_incident (inc : option App.Incident)
    (prev : list App.Incident) : Outcome (list App.Incident) :=
  match inc with
  | Some x => Return (map (fun i => if same_id i x then x else i) prev)
  | None =>
      match prev with
      | [] => Return []
      | _ :: _ =>
          Throw (TypeError "Cannot read properties of undefined (reading 'id')")
      end
  end.

(** The [incidents] list after the updates that the handler requests through
    [setIncidents] for one server message. An incident_accepted message
    requests none (the handler calls [fetchIncidents] instead, see
    [Refresh.fetchIncidents]); a stats_update message sets the stats only. *)
Definition onmessage (m : Message) (prev : list App.Incident)
  : Outcome (list App.Incident) :=
  match m with
  | new_incident id _ _ _ _ _ status _ =>
      Return (add_incident (of_new_incident id status) prev)
  | incident_updated inc => replace_incident (option_map of_row inc) prev
  | incident_accepted _ _ => Return prev
  | stats_update _ => Return prev
  end.

Definition ids (l : list App.Incident) : list Z := map App.incident_id l.

End Inbox.

(** ** Further definitions used in the statements *)

Definition incident_ids (s : Server) : list Z :=
  map incidents.id (db_incidents s).

(** The columns no statement assigns after the INSERT. *)
Definition same_origin (r r' : incidents.row) : Prop :=
  incidents.id r' = incidents.id r /\
  incidents.type r' = incidents.type r /\
  incidents.severity r' = incidents.severity r /\
  incidents.lat r' = incidents.lat r /\
  incidents.lng r' = incidents.lng r /\
  incidents.reporter_id r' = incidents.reporter_id r /\
  incidents.created_at r' = incidents.created_at r.

Definition registry_keys (s : Server) : list Z := map fst (clients s).

Definition is_incident_accepted (d : Delivery) : bool :=
  match snd d with incident_accepted _ _ => true | _ => false end.

(** Whether a row already counts in [resolvedToday] at [now]. *)
Definition counted_today (now : Z) (r : incidents.row) : bool :=
  String.eqb (incidents.status r) "resolved"
  && (ist_date (incidents.updated_at r) =? ist_date now).

Definition next_rowid (s : Server) : Z :=
  Z.max (incidents_seq s) (max_rowid (db_incidents s)) + 1.

Definition new_row (b : CreateBody) (now : Z) (s : Server) : incidents.row :=
  incidents.mk (next_rowid s) (cb_type b) "triggered" (cb_severity b)
               (cb_lat b) (cb_lng b) (cb_reporterId b) None now now.

(** ** Further sample states *)

Definition doctor_dashboard : App.State :=
  App.mkState (Some (App.mkUser 2 "doctor"))
    [ App.mkIncident 1 "triggered" (js_int 4) JsNull ].

Definition admin_dashboard : App.State :=
  App.mkState (Some (App.mkUser 1 "admin")) [].

Definition one_triggered : Server :=
  mkServer seed_users [ sample_incident 1 "triggered" None 0 ] 1
           [(2, 7%nat); (4, 8%nat)] all_open no_userId.

Definition tracked : Tracking :=
  mkTracking
    (mkServer seed_users [] 0 [(1, 9%nat); (2, 7%nat)] all_open
              (fun w => if Nat.eqb w 7 then Some 2
                        else if Nat.eqb w 9 then Some 1 else None))
    [].

Definition resolved_once : Server :=
  mkServer seed_users [ sample_incident 1 "resolved" (Some 2) 0 ] 1
           [] all_open no_userId.

(** A row that no later tick can move: still 'triggered' at 120 s or more,
    or still 'escalating' at 180 s or more. *)
Definition missed_window (now : Z) (r : incidents.row) : bool :=
  (String.eqb (incidents.status r) "triggered" && (120 <=? age now r))
  || (String.eqb (incidents.status r) "escalating" && (180 <=? age now r)).

Definition stale : Server :=
  mkServer seed_users
    [ sample_incident 1 "triggered" None 0;
      sample_incident 2 "escalating" None 0;
      sample_incident 3 "hospital_notified" None 0 ]
    3 [(2, 7%nat)] all_open no_userId.

(** A delivery on a socket that the registry holds and that is open. *)
Definition reaches (s : Server) (d : Delivery) : Prop :=
  In (fst d) (map snd (clients s)) /\ readyState s (fst d) = OPEN.

(** An [auth] message that registers nothing: the token does not verify, or
    its id is 0. *)
Definition auth_fails (decoded : option Z) : Prop :=
  decoded = None \/ decoded = Some 0.

(** ** More of the dashboard: refreshing the list, sending an SOS *)

Module Refresh.

(** [fetchIncidents]: the list becomes the answer of
    [GET /api/incidents/active]. *)
Definition fetchIncidents (s : Server) : list App.Incident :=
  match result_of (get_incidents_active s) with
  | Return rows => map Inbox.of_row rows
  | Throw _ => []
  end.

End Refresh.

Module Sos.

Inductive Effect : Type :=
| setIsDispatching (b : bool)
| alert (message : string)
| fetchIncidents.

(** [triggerSOS(type)] for the logged-in user [u]; [position] is what
    [getCurrentPosition] yields, [None] when it calls the error callback. *)
Definition triggerSOS (u : App.User) (type : string) (position : option (Q * Q))
    (now : Z) (s : Server) : list Effect * Server * list Delivery :=
  match position with
  | Some (latitude, longitude) =>
      let '(res, s', out) :=
        express (post_incidents
                   (mkCreateBody type latitude longitude (Some (App.id u)) "critical")
                   now) s in
      if ok res then ([setIsDispatching true; fetchIncidents], s', out)
      else ([setIsDispatching true; setIsDispatching false;
             alert "Failed to trigger SOS. Please try again or call emergency services directly."],
            s', out)
  | None =>
      ([setIsDispatching true; setIsDispatching false;
        alert "Location access is required for SOS. Please enable GPS."],
       s, [])
  end.

End Sos.

Definition opt_is (o : option Z) (z : Z) : bool :=
  match o with Some x => x =? z | None => false end.

(** Whether user [uid] is responder or reporter of the row, if any. *)
Definition owner_of (uid : Z) (r : option incidents.row) : bool :=
  match r with
  | Some x => opt_is (incidents.responder_id x) uid
              || opt_is (incidents.reporter_id x) uid
  | None => false
  end.

Definition rejection : list App.Effect :=
  [App.addToast "Only the assigned responder or the reporter can resolve this."
                "error"].

(** * Properties *)

(** ** Runs of the delivery functions *)

Lemma forEach_run {A} (g : Server -> A -> list Delivery) (f : A -> M unit) :
  (forall x s, f x s = (Return tt, s, g s x)) ->
  forall l s, forEach l f s = (Return tt, s, flat_map (g s) l).
Proof.
  intros Hf l; induction l as [|x l IH]; intros s; simpl.
  - reflexivity.
  - unfold bind. rewrite Hf, IH. reflexivity.
Qed.

Lemma send_to_run id m s : send_to id m s = (Return tt, s, delivered_to s id m).
Proof.
  unfold send_to, delivered_to, bind, get_server.
  destruct (map_get id (clients s)) as [c|]; simpl; [|reflexivity].
  destruct (is_open (readyState s c)); reflexivity.
Qed.

Lemma notify_reporter_run reporter m s :
  notify_reporter reporter m s = (Return tt, s, notify_out s reporter m).
Proof. destruct reporter; [apply send_to_run | reflexivity]. Qed.

Lemma broadcastToResponders_run data s :
  broadcastToResponders data s = (Return tt, s, responders_out s data).
Proof.
  unfold broadcastToResponders, bind, select_users.
  rewrite (forEach_run (fun s r => delivered_to s (users.id r) data)).
  - reflexivity.
  - intros; apply send_to_run.
Qed.

Lemma flat_map_filter_singleton {A B} (p : A -> bool) (h : A -> B) l :
  flat_map (fun x => if p x then [h x] else []) l = map h (filter p l).
Proof.
  induction l as [|x l IH]; simpl; [reflexivity|].
  destruct (p x); simpl; now rewrite IH.
Qed.

Lemma broadcastStats_run now s :
  broadcastStats now s = (Return tt, s, stats_out s now).
Proof.
  unfold broadcastStats, bind, get_server.
  rewrite (forEach_run (fun s' e =>
    if is_open (readyState s (snd e))
    then [(snd e, stats_update (compute_stats s now))] else [])).
  - simpl. unfold stats_out, open_entries.
    now rewrite flat_map_filter_singleton.
  - intros e s'. destruct (is_open (readyState s (snd e))); reflexivity.
Qed.

(** Handlers are run by unfolding [bind] and rewriting with these. *)
Create Rewrite HintDb runs.
#[local] Hint Rewrite send_to_run notify_reporter_run broadcastToResponders_run
  broadcastStats_run : runs.

Ltac run_callbacks :=
  unfold bind; autorewrite with runs; unfold ret; cbv beta iota zeta;
  rewrite ?app_nil_r.

(** ** The registry *)

Section Registry.
Context {V : Type}.
Implicit Types (m : JsMap V) (k : Z) (v : V).

Lemma map_get_set_eq k v m : map_get k (map_set k v m) = Some v.
Proof.
  induction m as [|[k' v'] m IH]; simpl.
  - now rewrite Z.eqb_refl.
  - destruct (k' =? k) eqn:E; simpl.
    + now rewrite Z.eqb_refl.
    + now rewrite E.
Qed.

Lemma map_get_delete_eq k m : map_get k (map_delete k m) = None.
Proof.
  induction m as [|[k' v'] m IH]; simpl; [reflexivity|].
  destruct (k' =? k) eqn:E; simpl; [assumption|].
  now rewrite E.
Qed.

Lemma in_map_set k v m e : In e (map_set k v m) -> e = (k, v) \/ In e m.
Proof.
  induction m as [|[k' v'] m IH]; simpl.
  - intros [<-|[]]. now left.
  - destruct (k' =? k); simpl.
    + intros [<-|H]; [now left | now right; right].
    + intros [<-|H]; [now right; left|].
      destruct (IH H); [now left | now right; right].
Qed.

Lemma in_map_delete k m e : In e (map_delete k m) <-> In e m /\ fst e <> k.
Proof.
  unfold map_delete. rewrite filter_In, negb_true_iff, Z.eqb_neq. tauto.
Qed.

Lemma map_get_in k v m : map_get k m = Some v -> In (k, v) m.
Proof.
  induction m as [|[k' v'] m IH]; simpl; [discriminate|].
  destruct (k' =? k) eqn:E.
  - apply Z.eqb_eq in E. intros [= ->]. left. now subst.
  - intros H. right. now apply IH.
Qed.
Lemma map_get_set_neq k k' v m : k' <> k -> map_get k (map_set k' v m) = map_get k m.
Proof.
  intros Hne. induction m as [|[k0 v0] m IH]; simpl.
  - apply Z.eqb_neq in Hne. now rewrite Hne.
  - destruct (k0 =? k') eqn:E; simpl.
    + apply Z.eqb_eq in E. subst k0. apply Z.eqb_neq in Hne. now rewrite Hne.
    + now rewrite IH.
Qed.

Lemma map_get_delete_neq k k' m : k' <> k -> map_get k (map_delete k' m) = map_get k m.
Proof.
  intros Hne. induction m as [|[k0 v0] m IH]; simpl; [reflexivity|].
  destruct (k0 =? k') eqn:E; simpl.
  - apply Z.eqb_eq in E. subst k0. apply Z.eqb_neq in Hne. now rewrite Hne.
  - now rewrite IH.
Qed.
End Registry.

Lemma delivered_to_in s id m d :
  In d (delivered_to s id m) ->
  snd d = m /\ map_get id (clients s) = Some (fst d) /\ readyState s (fst d) = OPEN.
Proof.
  unfold delivered_to.
  destruct (map_get id (clients s)) as [c|]; [|intros []].
  destruct (readyState s c) eqn:E; simpl; try contradiction.
  intros [<-|[]]. simpl. auto.
Qed.

Lemma responders_out_in s data d :
  In d (responders_out s data) <->
  snd d = data /\
  exists r, In r (db_users s) /\ is_active_responder r = true /\
            map_get (users.id r) (clients s) = Some (fst d) /\
            readyState s (fst d) = OPEN.
Proof.
  unfold responders_out. rewrite in_flat_map. split.
  - intros (r & Hr & Hd). apply filter_In in Hr as [Hr Ha].
    apply delivered_to_in in Hd as (? & ? & ?). eauto 8.
  - intros (Hm & r & Hr & Ha & Hg & Ho). exists r. split.
    + apply filter_In; auto.
    + unfold delivered_to. rewrite Hg, Ho. simpl. left.
      destruct d; simpl in *; now subst.
Qed.

Lemma stats_out_in s now d :
  In d (stats_out s now) -> In (fst d) (map snd (clients s)).
Proof.
  unfold stats_out, open_entries. intros H.
  apply in_map_iff in H as (e & <- & He).
  apply filter_In in He as [He _]. simpl.
  now apply in_map.
Qed.

Lemma text_in_In x l : text_in x l = true <-> In x l.
Proof.
  unfold text_in. rewrite existsb_exists. split.
  - intros (y & Hy & E). apply String.eqb_eq in E. now subst.
  - intros H. exists x. split; [assumption | apply String.eqb_refl].
Qed.

Lemma is_active_responder_spec r :
  is_active_responder r = true <->
  In (users.role r) responder_roles /\ users.status r = "active".
Proof.
  unfold is_active_responder.
  now rewrite andb_true_iff, text_in_In, String.eqb_eq.
Qed.

Lemma id_truthy_true u : u <> 0 -> id_truthy u = true.
Proof. intros H. unfold id_truthy. now rewrite negb_true_iff, Z.eqb_neq. Qed.

Lemma on_message_auth_run ws u s :
  u <> 0 ->
  on_message_auth ws (Some u) s =
    (Return tt,
     with_clients (with_userId s ws (Some u)) (map_set u ws (clients s)),
     []).
Proof.
  intros H. unfold on_message_auth, bind, get_server, put_server.
  now rewrite (id_truthy_true u H).
Qed.

Lemma on_close_run ws u s :
  u <> 0 -> userId s ws = Some u ->
  on_close ws s =
    (Return tt,
     with_clients (with_readyState s ws CLOSED) (map_delete u (clients s)),
     []).
Proof.
  intros H Hu. unfold on_close, bind, get_server, put_server. simpl.
  now rewrite Hu, (id_truthy_true u H).
Qed.

(** C9. User [u] authenticates on [t1], then on [t2] (a fresh, open socket).
    When [t1] closes, its handler deletes the entry of [u], which by then
    belongs to [t2]: the registry has nothing for [u], and although [t2] is
    still open no direct send and no broadcast reaches it. *)
Theorem close_of_superseded_connection_unregisters (s : Server) (u : Z)
    (t1 t2 : WebSocket) :
  u <> 0 -> t1 <> t2 ->
  readyState s t2 = OPEN -> ~ In t2 (map snd (clients s)) ->
  let mid := server_of ((on_message_auth t1 (Some u) ;;
                         on_message_auth t2 (Some u)) s) in
  let s3 := server_of (on_close t1 mid) in
  map_get u (clients mid) = Some t2 /\
  map_get u (clients s3) = None /\
  readyState s3 t2 = OPEN /\
  forall data now,
    sent_of (send_to u data s3) = [] /\
    ~ In t2 (map fst (sent_of (broadcastToResponders data s3))) /\
    ~ In t2 (map fst (sent_of (broadcastStats now s3))).
Proof.
  intros Hu Hne Hopen Hfresh mid s3.
  assert (Hmid : mid = with_clients
            (with_userId (with_userId s t1 (Some u)) t2 (Some u))
            (map_set u t2 (map_set u t1 (clients s)))).
  { subst mid. unfold bind.
    rewrite (on_message_auth_run t1 u s Hu), on_message_auth_run by exact Hu.
    reflexivity. }
  assert (Hs3 : s3 = with_clients (with_readyState mid t1 CLOSED)
                                  (map_delete u (clients mid))).
  { subst s3. rewrite (on_close_run t1 u mid Hu); [reflexivity|].
    rewrite Hmid. simpl. rewrite Nat.eqb_refl.
    destruct (Nat.eqb t1 t2) eqn:E; reflexivity. }
  assert (Hentries : forall e, In e (clients s3) -> In e (clients s)).
  { intros e He. rewrite Hs3 in He. simpl in He.
    apply in_map_delete in He as [He Hk]. rewrite Hmid in He. simpl in He.
    apply in_map_set in He as [->|He]; [now elim Hk|].
    apply in_map_set in He as [->|He]; [now elim Hk|]. assumption. }
  assert (Hnot : ~ In t2 (map snd (clients s3))).
  { intros H. apply in_map_iff in H as (e & <- & He).
    apply Hfresh, in_map, Hentries, He. }
  assert (Hnone : map_get u (clients s3) = None).
  { rewrite Hs3. simpl. apply map_get_delete_eq. }
  split; [rewrite Hmid; simpl; apply map_get_set_eq|].
  split; [exact Hnone|].
  split.
  { rewrite Hs3, Hmid. simpl.
    destruct (Nat.eqb t2 t1) eqn:E; [|exact Hopen].
    apply Nat.eqb_eq in E. congruence. }
  intros data now. repeat split.
  - rewrite send_to_run. unfold sent_of, delivered_to. simpl. now rewrite Hnone.
  - rewrite broadcastToResponders_run. unfold sent_of. simpl.
    intros H. apply in_map_iff in H as (d & Hd & Hin).
    apply responders_out_in in Hin as (_ & r & _ & _ & Hg & _).
    apply map_get_in in Hg. apply Hnot.
    rewrite Hd in Hg. now apply (in_map snd) in Hg.
  - rewrite broadcastStats_run. unfold sent_of. simpl.
    intros H. apply in_map_iff in H as (d & Hd & Hin).
    apply stats_out_in in Hin. now rewrite Hd in Hin.
Qed.

Lemma close_of_superseded_connection_unregisters_witness :
  2 <> 0 /\ 5%nat <> 6%nat /\
  readyState empty_registry 6%nat = OPEN /\
  ~ In 6%nat (map snd (clients empty_registry)) /\
  let mid := server_of ((on_message_auth 5%nat (Some 2) ;;
                         on_message_auth 6%nat (Some 2)) empty_registry) in
  let s3 := server_of (on_close 5%nat mid) in
  map_get 2 (clients mid) = Some 6%nat /\
  map_get 2 (clients s3) = None /\
  readyState s3 6%nat = OPEN /\
  forall data now,
    sent_of (send_to 2 data s3) = [] /\
    ~ In 6%nat (map fst (sent_of (broadcastToResponders data s3))) /\
    ~ In 6%nat (map fst (sent_of (broadcastStats now s3))).
Proof.
  assert (Hu : 2 <> 0) by discriminate.
  assert (Hne : 5%nat <> 6%nat) by discriminate.
  assert (Hfresh : ~ In 6%nat (map snd (clients empty_registry)))
    by (simpl; tauto).
  split; [exact Hu|]. split; [exact Hne|]. split; [reflexivity|].
  split; [exact Hfresh|].
  exact (close_of_superseded_connection_unregisters empty_registry 2 5%nat 6%nat
           Hu Hne eq_refl Hfresh).
Defined.

(** C10. A message handed to [broadcastToResponders] (every new_incident and
    incident_updated goes through it) is put exactly on the open sockets that
    the registry holds for users whose row, read when the message is sent,
    has a responder role and status 'active'. A registered user whose row
    fails that test gets nothing on their socket (unless the same socket is
    also registered for another user). *)
Theorem broadcast_targets_active_responder_rows (s : Server) (data : Message) :
  (forall ws m,
     In (ws, m) (sent_of (broadcastToResponders data s)) <->
     m = data /\
     exists r, In r (db_users s) /\
               In (users.role r) responder_roles /\
               users.status r = "active" /\
               map_get (users.id r) (clients s) = Some ws /\
               readyState s ws = OPEN) /\
  (forall u ws,
     map_get u (clients s) = Some ws ->
     (forall r, In r (db_users s) -> users.id r = u ->
                ~ (In (users.role r) responder_roles /\
                   users.status r = "active")) ->
     (forall k, k <> u -> map_get k (clients s) <> Some ws) ->
     ~ In ws (map fst (sent_of (broadcastToResponders data s)))).
Proof.
  rewrite broadcastToResponders_run. unfold sent_of. simpl.
  assert (Hchar : forall ws m,
     In (ws, m) (responders_out s data) <->
     m = data /\
     exists r, In r (db_users s) /\
               In (users.role r) responder_roles /\
               users.status r = "active" /\
               map_get (users.id r) (clients s) = Some ws /\
               readyState s ws = OPEN).
  { intros ws m. rewrite responders_out_in. simpl.
    split; intros (Hm & r & Hr & Ha & Hrest).
    - apply is_active_responder_spec in Ha as [? ?]. eauto 8.
    - destruct Hrest as (Hst & Hrest). split; [assumption|].
      exists r. rewrite is_active_responder_spec. auto. }
  split; [exact Hchar|].
  intros u ws Hreg Hrow Hother H.
  apply in_map_iff in H as ([ws' m] & Hd & Hin). simpl in Hd. subst ws'.
  apply Hchar in Hin as (_ & r & Hr & Hrole & Hst & Hg & _).
  destruct (Z.eq_dec (users.id r) u) as [E|E].
  - apply (Hrow r Hr E). auto.
  - apply (Hother _ E Hg).
Qed.

Lemma broadcast_targets_active_responder_rows_witness :
  map_get 4 (clients civilian_online) = Some 8%nat /\
  In (7%nat, incident_updated None)
     (sent_of (broadcastToResponders (incident_updated None) civilian_online)) /\
  ~ In 8%nat
      (map fst (sent_of (broadcastToResponders (incident_updated None)
                                               civilian_online))).
Proof.
  destruct (broadcast_targets_active_responder_rows civilian_online
              (incident_updated None)) as [Hiff Hskip].
  split; [reflexivity|]. split.
  - apply (proj2 (Hiff 7%nat (incident_updated None))). split; [reflexivity|].
    exists (users.mk 2 "doctor" "active"). simpl. tauto.
  - apply (Hskip 4 8%nat eq_refl).
    + intros r Hr Hid [Hrole _]. simpl in Hr.
      destruct Hr as [<-|[<-|[<-|[<-|[]]]]]; try discriminate Hid.
      simpl in Hrole. repeat (destruct Hrole as [Hrole|Hrole]; [discriminate|]).
      exact Hrole.
    + intros k Hk.
      change (map_get k (clients civilian_online))
        with (if 2 =? k then Some 7%nat
              else if 4 =? k then Some 8%nat else None).
      destruct (2 =? k); [intros H; discriminate H|].
      destruct (4 =? k) eqn:E; [|intros H; discriminate H].
      apply Z.eqb_eq in E. congruence.
Defined.

(** ** The escalation timer, statement by statement *)

Lemma age_set_status now st t r : age now (incidents.set_status st t r) = age now r.
Proof. reflexivity. Qed.

Lemma forEach_from_run {A} (g : Server -> A -> nat -> list Delivery)
    (f : A -> nat -> M unit) :
  (forall x k s, f x k s = (Return tt, s, g s x k)) ->
  forall l k s,
    forEach_from k l f s
    = (Return tt, s, flat_map (fun p => g s (snd p) (fst p)) (indexed k l)).
Proof.
  intros Hf l; induction l as [|x l IH]; intros k s; simpl.
  - reflexivity.
  - unfold bind. rewrite Hf, IH. reflexivity.
Qed.


Lemma map_snd_indexed {A} k (l : list A) : map snd (indexed k l) = l.
Proof. revert k; induction l as [|x l IH]; intros k; simpl; [|rewrite IH]; reflexivity. Qed.

Lemma where_status (src : string) (rest : bool) (r : incidents.row) :
  String.eqb (incidents.status r) src && rest = true -> incidents.status r = src.
Proof. intros H. apply andb_true_iff in H as [H _]. now apply String.eqb_eq. Qed.

Lemma tier2_where_status now r : tier2_where now r = true -> incidents.status r = "triggered".
Proof. apply where_status. Qed.

Lemma tier3_where_status now r : tier3_where now r = true -> incidents.status r = "escalating".
Proof. apply where_status. Qed.

Lemma tier4_where_status now r :
  tier4_where now r = true -> incidents.status r = "hospital_notified".
Proof. apply where_status. Qed.

Lemma tier2_row_true now r :
  tier2_where now r = true -> tier2_row now r = incidents.set_status "escalating" now r.
Proof. unfold tier2_row, apply_where. now intros ->. Qed.

Lemma tier2_row_false now r : tier2_where now r = false -> tier2_row now r = r.
Proof. unfold tier2_row, apply_where. now intros ->. Qed.

Lemma tier3_row_true now r :
  tier3_where now r = true ->
  tier3_row now r = incidents.set_status "hospital_notified" now r.
Proof. unfold tier3_row, apply_where. now intros ->. Qed.

Lemma tier3_row_false now r : tier3_where now r = false -> tier3_row now r = r.
Proof. unfold tier3_row, apply_where. now intros ->. Qed.

Lemma tier4_row_true now r :
  tier4_where now r = true ->
  tier4_row now r = incidents.set_status "command_alerted" now r.
Proof. unfold tier4_row, apply_where. now intros ->. Qed.

Lemma tier4_row_false now r : tier4_where now r = false -> tier4_row now r = r.
Proof. unfold tier4_row, apply_where. now intros ->. Qed.

(** Within one second the windows of the three statements do not meet: a
    row the first statement moved is not selected by the second, and so on. *)
Lemma tier3_after_tier2 now r : tier3_where now (tier2_row now r) = tier3_where now r.
Proof.
  destruct (tier2_where now r) eqn:E;
    [rewrite (tier2_row_true _ _ E) | now rewrite (tier2_row_false _ _ E)].
  unfold tier2_where in E. unfold tier3_where. rewrite age_set_status. simpl.
  apply andb_true_iff in E as [Es Ea]. apply String.eqb_eq in Es. rewrite Es.
  simpl. apply andb_true_iff in Ea as [_ Ea]. apply Z.leb_le in Ea.
  apply andb_false_iff. left. apply Z.leb_gt. lia.
Qed.

Lemma tier4_after_tier3 now r : tier4_where now (tier3_row now r) = tier4_where now r.
Proof.
  destruct (tier3_where now r) eqn:E;
    [rewrite (tier3_row_true _ _ E) | now rewrite (tier3_row_false _ _ E)].
  unfold tier3_where in E. unfold tier4_where. rewrite age_set_status. simpl.
  apply andb_true_iff in E as [Es Ea]. apply String.eqb_eq in Es. rewrite Es.
  simpl. apply andb_true_iff in Ea as [_ Ea]. apply Z.leb_le in Ea.
  apply Z.ltb_ge. lia.
Qed.

Lemma tier4_after_tier2 t r : forall now, tier4_where t (tier2_row now r) = tier4_where t r.
Proof.
  intros now. destruct (tier2_where now r) eqn:E;
    [rewrite (tier2_row_true _ _ E) | now rewrite (tier2_row_false _ _ E)].
  apply tier2_where_status in E. unfold tier4_where. simpl. now rewrite E.
Qed.

(** With one reading for the three statements, a tick is one choice. *)
Lemma tick_row_same_second now r :
  tick_row (same_second now) r =
    if tier2_where now r then incidents.set_status "escalating" now r
    else if tier3_where now r then incidents.set_status "hospital_notified" now r
    else if tier4_where now r then incidents.set_status "command_alerted" now r
    else r.
Proof.
  unfold tick_row, same_second. cbn [tier2_now tier3_now tier4_now].
  pose proof (tier3_after_tier2 now r) as E32.
  pose proof (tier4_after_tier2 now r now) as E42.
  destruct (tier2_where now r) eqn:E2.
  - pose proof (tier2_where_status _ _ E2) as Hst.
    assert (E3 : tier3_where now r = false)
      by (unfold tier3_where; now rewrite Hst).
    assert (E4 : tier4_where now r = false)
      by (unfold tier4_where; now rewrite Hst).
    rewrite E3 in E32. rewrite E4 in E42.
    rewrite (tier3_row_false _ _ E32), (tier4_row_false _ _ E42).
    now apply tier2_row_true.
  - rewrite (tier2_row_false _ _ E2).
    pose proof (tier4_after_tier3 now r) as E43.
    destruct (tier3_where now r) eqn:E3.
    + pose proof (tier3_where_status _ _ E3) as Hst.
      assert (E4 : tier4_where now r = false)
        by (unfold tier4_where; now rewrite Hst).
      rewrite E4 in E43. rewrite (tier4_row_false _ _ E43).
      now apply tier3_row_true.
    + rewrite (tier3_row_false _ _ E3).
      destruct (tier4_where now r) eqn:E4;
        [now apply tier4_row_true | now apply tier4_row_false].
Qed.

Lemma escalates_same_second now r :
  escalates (same_second now) r
  = tier2_where now r || tier3_where now r || tier4_where now r.
Proof.
  unfold escalates, same_second. cbn [tier2_now tier3_now tier4_now].
  now rewrite tier4_after_tier3, tier4_after_tier2, tier3_after_tier2.
Qed.

Lemma count_pos_existsb {A} (p : A -> bool) l :
  (Z.of_nat (List.length (filter p l)) >? 0) = existsb p l.
Proof.
  induction l as [|x l IH]; simpl; [reflexivity|].
  destruct (p x); simpl; [|exact IH].
  apply Z.gtb_lt. lia.
Qed.

Lemma filter_ext_map {A} (p q : A -> bool) (f : A -> A) l :
  (forall x, q (f x) = p x) ->
  List.length (filter q (map f l)) = List.length (filter p l).
Proof.
  intros H. induction l as [|x l IH]; simpl; [reflexivity|].
  rewrite H. destruct (p x); simpl; now rewrite IH.
Qed.

Lemma existsb_orb3 {A} (p q r : A -> bool) l :
  existsb p l || existsb q l || existsb r l
  = existsb (fun x => p x || q x || r x) l.
Proof.
  induction l as [|x l IH]; simpl; [reflexivity|].
  rewrite <- IH. destruct (p x), (q x), (r x), (existsb p l), (existsb q l);
    reflexivity.
Qed.

Lemma with_incidents_twice s rows1 seq1 rows2 seq2 :
  with_incidents (with_incidents s rows1 seq1) rows2 seq2
  = with_incidents s rows2 seq2.
Proof. reflexivity. Qed.

Lemma sql_update_run cond assign s :
  sql_update cond assign s
  = (Return (Z.of_nat (List.length (filter cond (db_incidents s)))),
     after_update s cond assign, []).
Proof. reflexivity. Qed.

Lemma escalation_tick_run clk s :
  escalation_tick clk s =
    (Return tt, after_tick clk s,
     if existsb (escalates clk) (db_incidents s) then
       flat_map (fun p =>
                   responders_out (after_tick clk s)
                                  (incident_updated (Some (snd p)))
                   ++ stats_out (after_tick clk s) (stats_now clk (fst p)))
                (indexed 0 (filter in_escalated_tier
                                   (db_incidents (after_tick clk s))))
     else []).
Proof.
  unfold escalation_tick, tier2_statement, tier3_statement, tier4_statement.
  unfold bind at 1 2 3. rewrite !sql_update_run. cbv beta iota zeta.
  unfold after_update. cbn [db_incidents incidents_seq with_incidents].
  fold (tier2_row (tier2_now clk)). fold (tier3_row (tier3_now clk)).
  fold (tier4_row (tier4_now clk)).
  rewrite !map_map.
  rewrite (filter_ext_map
             (fun r => tier3_where (tier3_now clk) (tier2_row (tier2_now clk) r))
             (tier3_where (tier3_now clk))) by reflexivity.
  rewrite (filter_ext_map
             (fun r => tier4_where (tier4_now clk)
                         (tier3_row (tier3_now clk) (tier2_row (tier2_now clk) r)))
             (tier4_where (tier4_now clk))) by reflexivity.
  rewrite !count_pos_existsb, existsb_orb3. fold (escalates clk).
  rewrite ?with_incidents_twice.
  fold (tick_row clk). fold (after_tick clk s).
  rewrite ?app_nil_r.
  destruct (existsb (escalates clk) (db_incidents s)); [|reflexivity].
  unfold bind at 1, select_incidents.
  rewrite (forEach_from_run (fun s' inc k =>
     responders_out s' (incident_updated (Some inc))
     ++ stats_out s' (stats_now clk k))).
  - reflexivity.
  - intros inc k s'. unfold bind.
    now rewrite broadcastToResponders_run, broadcastStats_run.
Qed.

Lemma tick_row_id clk r : incidents.id (tick_row clk r) = incidents.id r.
Proof.
  unfold tick_row, tier2_row, tier3_row, tier4_row, apply_where.
  repeat match goal with |- context [if ?b then _ else _] => destruct b end;
    reflexivity.
Qed.

Lemma tick_row_idle clk r : escalates clk r = false -> tick_row clk r = r.
Proof.
  unfold escalates, tick_row. intros H.
  apply orb_false_iff in H as [H H4]. apply orb_false_iff in H as [H2 H3].
  rewrite (tier2_row_false _ _ H2) in *.
  rewrite (tier3_row_false _ _ H3) in *.
  now apply tier4_row_false.
Qed.

Lemma map_tick_row_idle clk rows :
  existsb (escalates clk) rows = false -> map (tick_row clk) rows = rows.
Proof.
  induction rows as [|r rows IH]; simpl; [reflexivity|].
  intros H. apply orb_false_iff in H as [Hr Hrows].
  now rewrite (tick_row_idle clk r Hr), IH.
Qed.

Lemma server_of_tick clk s : server_of (escalation_tick clk s) = after_tick clk s.
Proof. now rewrite escalation_tick_run. Qed.

Lemma nth_error_after_tick clk s i :
  nth_error (db_incidents (server_of (escalation_tick clk s))) i
  = option_map (tick_row clk) (nth_error (db_incidents s) i).
Proof. rewrite server_of_tick. simpl. apply nth_error_map. Qed.

(** ** Stats broadcasts of a tick *)


Lemma filter_flat_map {A B} (p : B -> bool) (f : A -> list B) l :
  filter p (flat_map f l) = flat_map (fun x => filter p (f x)) l.
Proof.
  induction l as [|x l IH]; simpl; [reflexivity|].
  now rewrite filter_app, IH.
Qed.







(** ** Age windows *)

(** C6, as stated, fails: an incident still 'triggered' at age 120 s is not
    touched by the tick. *)
Lemma triggered_at_age_120_stays_triggered :
  (exists r, nth_error (db_incidents overdue) 0 = Some r /\
             incidents.status r = "triggered" /\ 60 <= age 120 r) /\
  status_at 0 (server_of (escalation_tick (same_second 120) overdue))
    = Some "triggered".
Proof.
  split.
  - eexists. split; [reflexivity|]. split; [reflexivity|]. vm_compute. discriminate.
  - vm_compute. reflexivity.
Qed.

(** C6, amended. A 'triggered' incident aged at least 60 s when the first
    UPDATE reads the clock is moved to 'escalating' by that statement
    exactly when its age then is at most 119 s; from 120 s on the tick
    leaves the row as it is. A row so moved stays 'escalating' to the end of
    the tick unless the clock has reached the next window by the time the
    second UPDATE reads it (age 120 to 179 s): then that statement moves it
    on to 'hospital_notified', and the third to 'command_alerted' when its
    own reading gives an age above 180 s. *)
Theorem triggered_escalates_inside_window (clk : TickClock) (s : Server)
    (i : nat) (r : incidents.row) :
  nth_error (db_incidents s) i = Some r ->
  incidents.status r = "triggered" ->
  60 <= age (tier2_now clk) r ->
  nth_error (db_incidents (server_of (escalation_tick clk s))) i =
    Some (if age (tier2_now clk) r <=? 119 then
            if (120 <=? age (tier3_now clk) r) && (age (tier3_now clk) r <=? 179)
            then if 180 <? age (tier4_now clk) r
                 then incidents.set_status "command_alerted" (tier4_now clk) r
                 else incidents.set_status "hospital_notified" (tier3_now clk) r
            else incidents.set_status "escalating" (tier2_now clk) r
          else r).
Proof.
  intros Hi Hst Hage. rewrite nth_error_after_tick, Hi. simpl. f_equal.
  unfold tick_row. apply Z.leb_le in Hage.
  destruct (age (tier2_now clk) r <=? 119) eqn:E2.
  - rewrite (tier2_row_true (tier2_now clk) r)
      by (unfold tier2_where; now rewrite Hst, Hage, E2).
    destruct ((120 <=? age (tier3_now clk) r) && (age (tier3_now clk) r <=? 179))
      eqn:E3.
    + rewrite tier3_row_true by (unfold tier3_where; exact E3).
      destruct (180 <? age (tier4_now clk) r) eqn:E4.
      * rewrite tier4_row_true by (unfold tier4_where; exact E4). reflexivity.
      * rewrite tier4_row_false by (unfold tier4_where; exact E4). reflexivity.
    + rewrite tier3_row_false by (unfold tier3_where; exact E3).
      now rewrite tier4_row_false.
  - rewrite (tier2_row_false (tier2_now clk) r)
      by (unfold tier2_where; now rewrite Hst, Hage, E2).
    rewrite tier3_row_false by (unfold tier3_where; now rewrite Hst).
    rewrite tier4_row_false by (unfold tier4_where; now rewrite Hst).
    reflexivity.
Qed.

Lemma triggered_escalates_inside_window_witness :
  nth_error (db_incidents two_due) 0 = Some (sample_incident 1 "triggered" None 0) /\
  incidents.status (sample_incident 1 "triggered" None 0) = "triggered" /\
  60 <= age (tier2_now rollover) (sample_incident 1 "triggered" None 0) /\
  nth_error (db_incidents (server_of (escalation_tick rollover two_due))) 0 =
    Some (incidents.set_status "hospital_notified" 120
            (sample_incident 1 "triggered" None 0)).
Proof.
  assert (Hage : 60 <= age (tier2_now rollover) (sample_incident 1 "triggered" None 0))
    by (vm_compute; discriminate).
  split; [reflexivity|]. split; [reflexivity|]. split; [exact Hage|].
  exact (triggered_escalates_inside_window rollover two_due 0
           (sample_incident 1 "triggered" None 0) eq_refl eq_refl Hage).
Defined.

(** When the three statements read the same second, the tick leaves a
    'triggered' row aged 60 to 119 s in 'escalating'. *)
Lemma triggered_same_second (now : Z) (s : Server) (i : nat) (r : incidents.row) :
  nth_error (db_incidents s) i = Some r ->
  incidents.status r = "triggered" ->
  60 <= age now r ->
  nth_error (db_incidents (server_of (escalation_tick (same_second now) s))) i =
    Some (if age now r <=? 119
          then incidents.set_status "escalating" now r
          else r).
Proof.
  intros Hi Hst Hage. rewrite nth_error_after_tick, Hi. simpl. f_equal.
  rewrite tick_row_same_second.
  unfold tier2_where, tier3_where, tier4_where. rewrite Hst. simpl.
  apply Z.leb_le in Hage. rewrite Hage. simpl.
  destruct (age now r <=? 119); reflexivity.
Qed.

(** The second rolls over between the first and the second UPDATE: the
    incident, 119 s old at the first and 120 s old at the second, leaves the
    tick as 'hospital_notified'. *)
Example rollover_tick_takes_two_steps :
  map incidents.status (db_incidents two_due) = ["triggered"; "triggered"] /\
  map incidents.status (db_incidents (server_of (escalation_tick rollover two_due)))
    = ["hospital_notified"; "escalating"].
Proof. split; vm_compute; reflexivity. Qed.

(** ** Tier order *)



(** With one reading for its three statements, a tick is one step. *)
Lemma tick_row_step now r : row_step r (tick_row (same_second now) r).
Proof.
  split; [apply tick_row_id|].
  rewrite tick_row_same_second.
  destruct (tier2_where now r) eqn:E2.
  { apply tier2_where_status in E2. right. rewrite E2. constructor. }
  destruct (tier3_where now r) eqn:E3.
  { apply tier3_where_status in E3. right. rewrite E3. constructor. }
  destruct (tier4_where now r) eqn:E4.
  { apply tier4_where_status in E4. right. rewrite E4. constructor. }
  now left.
Qed.

Lemma settled_idle clk r :
  In (incidents.status r) ["accepted"; "resolved"; "closed"] ->
  escalates clk r = false.
Proof.
  intros H.
  assert (H2 : forall t, tier2_where t r = false)
    by (intros t; unfold tier2_where; simpl in H;
        destruct H as [<-|[<-|[<-|[]]]]; reflexivity).
  assert (H3 : forall t, tier3_where t r = false)
    by (intros t; unfold tier3_where; simpl in H;
        destruct H as [<-|[<-|[<-|[]]]]; reflexivity).
  assert (H4 : forall t, tier4_where t r = false)
    by (intros t; unfold tier4_where; simpl in H;
        destruct H as [<-|[<-|[<-|[]]]]; reflexivity).
  unfold escalates.
  now rewrite H2, (tier2_row_false _ _ (H2 _)), H3, (tier3_row_false _ _ (H3 _)), H4.
Qed.

Lemma tick_row_settled clk r :
  In (incidents.status r) ["accepted"; "resolved"; "closed"] ->
  tick_row clk r = r.
Proof. intros H. apply tick_row_idle. now apply settled_idle. Qed.





(** The scenario of an incident nobody accepts: ticks at 65 s, 125 s and
    185 s take it through the three tiers, the accepted one stays. *)
Example unaccepted_incident_scenario :
  map (fun s' => map incidents.status (db_incidents s'))
      (run_ticks [same_second 65; same_second 125; same_second 185] mixed)
  = [ ["escalating"; "accepted"];
      ["hospital_notified"; "accepted"];
      ["command_alerted"; "accepted"] ].
Proof. vm_compute. reflexivity. Qed.

(** The same incident when the second rolls over inside the first tick:
    statement by statement it visits every tier, tick by tick it is seen
    as hospital_notified and then command_alerted. *)
Example rollover_scenario :
  map (fun s' => map incidents.status (db_incidents s'))
      (run_statements [rollover; same_second 185] mixed)
  = [ ["escalating"; "accepted"];
      ["hospital_notified"; "accepted"];
      ["hospital_notified"; "accepted"];
      ["hospital_notified"; "accepted"];
      ["hospital_notified"; "accepted"];
      ["command_alerted"; "accepted"] ] /\
  map (fun s' => map incidents.status (db_incidents s'))
      (run_ticks [rollover; same_second 185] mixed)
  = [ ["hospital_notified"; "accepted"];
      ["command_alerted"; "accepted"] ].
Proof. split; vm_compute; reflexivity. Qed.

(** ** HTTP handlers, run *)

Lemma forallb_const_filter {A} (c : bool) (p : A -> bool) l :
  forallb (fun _ => c) (filter p l) = c || negb (existsb p l).
Proof.
  induction l as [|x l IH]; simpl; [now rewrite orb_true_r|].
  destruct (p x); simpl; [|exact IH].
  rewrite IH. destruct c; reflexivity.
Qed.

Lemma existsb_find {A} (p : A -> bool) l :
  existsb p l = match find p l with Some _ => true | None => false end.
Proof.
  induction l as [|x l IH]; simpl; [reflexivity|].
  destruct (p x); [reflexivity | exact IH].
Qed.

(** The accept UPDATE passes its foreign key when the responder is a row of
    [users], or when no row has the id. *)
Lemma sql_update_fk_accept id responderId now s :
  sql_update_fk incidents.responder_id (has_id id)
                (incidents.set_accepted responderId now) s =
    if has_user responderId s || negb (existsb (has_id id) (db_incidents s))
    then sql_update (has_id id) (incidents.set_accepted responderId now) s
    else (Throw (SqliteError "FOREIGN KEY constraint failed"), s, []).
Proof.
  unfold sql_update_fk. cbn [incidents.responder_id incidents.set_accepted
                             references_user].
  now rewrite forallb_const_filter.
Qed.

(** The accept handler after an UPDATE that passed. *)
Lemma post_incidents_accept_run id responderId now s :
  has_user responderId s || negb (existsb (has_id id) (db_incidents s)) = true ->
  let s' := after_update s (has_id id) (incidents.set_accepted responderId now) in
  post_incidents_accept id responderId now s =
    match find (has_id id) (db_incidents s') with
    | None =>
        (Throw (TypeError "Cannot read properties of undefined (reading 'reporter_id')"),
         s', [])
    | Some inc =>
        (Return json_status_ok, s',
         notify_out s' (incidents.reporter_id inc) (incident_accepted id responderId)
         ++ responders_out s' (incident_updated (Some inc))
         ++ stats_out s' now)
    end.
Proof.
  intros Hfk s'. unfold post_incidents_accept, bind at 1 2.
  rewrite sql_update_fk_accept, Hfk. unfold sql_update, select_incident.
  simpl. fold (apply_where (has_id id) (incidents.set_accepted responderId now)).
  fold (after_update s (has_id id) (incidents.set_accepted responderId now)).
  fold s'. fold (has_id id). simpl.
  destruct (find _ _) as [inc|]; [|reflexivity].
  now run_callbacks.
Qed.

(** The accept handler after an UPDATE that the foreign key refused. *)
Lemma post_incidents_accept_refused id responderId now s :
  has_user responderId s || negb (existsb (has_id id) (db_incidents s)) = false ->
  post_incidents_accept id responderId now s =
    (Throw (SqliteError "FOREIGN KEY constraint failed"), s, []).
Proof.
  intros Hfk. unfold post_incidents_accept, bind at 1.
  now rewrite sql_update_fk_accept, Hfk.
Qed.

Lemma post_incidents_resolve_run id userId now s :
  let s' := after_update s (has_id id) (incidents.set_status "resolved" now) in
  post_incidents_resolve id userId now s =
    (Return json_status_ok, s',
     responders_out s' (incident_updated (find (has_id id) (db_incidents s')))
     ++ stats_out s' now).
Proof.
  intros s'. unfold post_incidents_resolve, bind at 1 2, sql_update, select_incident.
  simpl. fold (apply_where (has_id id) (incidents.set_status "resolved" now)).
  fold (after_update s (has_id id) (incidents.set_status "resolved" now)).
  fold s'. fold (has_id id). now run_callbacks.
Qed.

Lemma find_after_update id assign rows :
  (forall r, incidents.id (assign r) = incidents.id r) ->
  find (has_id id) (map (apply_where (has_id id) assign) rows)
  = option_map assign (find (has_id id) rows).
Proof.
  intros Hid. induction rows as [|r rows IH]; simpl; [reflexivity|].
  assert (Hsame : forall x, has_id id (assign x) = has_id id x)
    by (intros x; unfold has_id; now rewrite Hid).
  unfold apply_where at 1. destruct (has_id id r) eqn:E.
  - rewrite Hsame, E. unfold apply_where. now rewrite E.
  - now rewrite E.
Qed.

Lemma update_unknown id assign rows :
  find (has_id id) rows = None ->
  map (apply_where (has_id id) assign) rows = rows.
Proof.
  induction rows as [|r rows IH]; simpl; [reflexivity|].
  unfold apply_where at 1. destruct (has_id id r); [discriminate|].
  intros H. now rewrite IH.
Qed.

Lemma after_update_unknown s id assign :
  find (has_id id) (db_incidents s) = None ->
  after_update s (has_id id) assign = s.
Proof.
  intros H. unfold after_update. rewrite update_unknown by exact H.
  now destruct s.
Qed.

(** C1, as stated, fails: incident 1 is accepted with responder 2; a second
    accept naming responder 3 is answered 200 and stores responder 3. *)
Lemma second_accept_replaces_responder :
  let r := express (post_incidents_accept 1 3 50) accepted_once in
  find (has_id 1) (db_incidents accepted_once)
    = Some (sample_incident 1 "accepted" (Some 2) 0) /\
  result_of r = mkResponse 200 (Some json_status_ok) /\
  option_map incidents.responder_id (find (has_id 1) (db_incidents (server_of r)))
    = Some (Some 3).
Proof. vm_compute. auto. Qed.

(** C1, amended. An accept request for an existing incident whose
    [responderId] is the id of a row of [users] is applied whatever the
    incident's status and whether or not it already has a responder: it is
    answered 200 and leaves the incident 'accepted' with [responder_id] set
    to the request's [responderId]. The only accept request for an existing
    incident that is refused is one whose [responderId] names no user: the
    UPDATE fails on the foreign key, the answer is 500, and nothing is
    changed or sent. *)
Theorem accept_always_assigns_responder (s : Server) (id responderId now : Z)
    (r0 : incidents.row) :
  find (has_id id) (db_incidents s) = Some r0 ->
  let r := express (post_incidents_accept id responderId now) s in
  if has_user responderId s then
    result_of r = mkResponse 200 (Some json_status_ok) /\
    find (has_id id) (db_incidents (server_of r))
      = Some (incidents.set_accepted responderId now r0)
  else
    r = (mkResponse 500 None, s, []).
Proof.
  intros H r. subst r. unfold express.
  destruct (has_user responderId s) eqn:Hu.
  - rewrite post_incidents_accept_run by (now rewrite Hu).
    unfold after_update. simpl.
    rewrite find_after_update by reflexivity. rewrite H. simpl.
    unfold result_of, server_of. simpl.
    rewrite find_after_update by reflexivity. now rewrite H.
  - rewrite post_incidents_accept_refused; [reflexivity|].
    now rewrite Hu, existsb_find, H.
Qed.

(** An accept naming a responder that is no user: the doctor stays the
    responder of incident 1. *)
Example accept_by_unknown_responder :
  let r := express (post_incidents_accept 1 99 50) accepted_once in
  r = (mkResponse 500 None, accepted_once, []).
Proof. vm_compute. reflexivity. Qed.

(** The same through the dashboard: its [acceptIncident] checks the user's
    role only, so the police user takes over incident 1 from the doctor. *)
Example dashboard_second_accept :
  let r := App.acceptIncident police_dashboard 1 50 accepted_once in
  result_of r = [App.addToast "Incident accepted. Proceed to location." "success";
                 App.fetchIncidents] /\
  option_map incidents.responder_id (find (has_id 1) (db_incidents (server_of r)))
    = Some (Some 3).
Proof. vm_compute. auto. Qed.

Lemma accept_always_assigns_responder_witness :
  find (has_id 1) (db_incidents accepted_once)
    = Some (sample_incident 1 "accepted" (Some 2) 0) /\
  has_user 3 accepted_once = true /\
  let r := express (post_incidents_accept 1 3 50) accepted_once in
  result_of r = mkResponse 200 (Some json_status_ok) /\
  find (has_id 1) (db_incidents (server_of r))
    = Some (incidents.set_accepted 3 50 (sample_incident 1 "accepted" (Some 2) 0)).
Proof.
  split; [reflexivity|]. split; [reflexivity|].
  exact (accept_always_assigns_responder accepted_once 1 3 50
           (sample_incident 1 "accepted" (Some 2) 0) eq_refl).
Defined.

(** ** Unknown incident ids *)

(** C4, as stated, fails: a resolve request for id 9, which names no
    incident, is answered 200 [{status:'ok'}] and the connected responder is
    sent an incident_updated message (carrying no incident) and a
    stats_update. *)
Lemma resolve_unknown_id_answers_ok_and_broadcasts :
  find (has_id 9) (db_incidents two_due) = None /\
  let r := express (post_incidents_resolve 9 (js_int 3) 20) two_due in
  result_of r = mkResponse 200 (Some json_status_ok) /\
  sent_of r =
    [ (7%nat, incident_updated None);
      (7%nat, stats_update (mkStats 2 2 0 84)) ].
Proof. vm_compute. auto. Qed.

(** C4, amended. For an id that names no incident, neither request changes
    any state. Accept sends nothing and ends in an uncaught TypeError, which
    Express answers with status 500 (there is no separate not-found outcome).
    Resolve is answered 200 [{status:'ok'}] and sends what its two broadcasts
    send, the incident_updated message carrying no incident. *)
Theorem unknown_incident_requests (s : Server) (id responderId now : Z)
    (userId : JsValue) :
  find (has_id id) (db_incidents s) = None ->
  post_incidents_accept id responderId now s =
    (Throw (TypeError "Cannot read properties of undefined (reading 'reporter_id')"),
     s, []) /\
  express (post_incidents_accept id responderId now) s
    = (mkResponse 500 None, s, []) /\
  express (post_incidents_resolve id userId now) s
    = (mkResponse 200 (Some json_status_ok), s,
       sent_of ((broadcastToResponders (incident_updated None) ;;
                 broadcastStats now) s)).
Proof.
  intros H.
  assert (Ha : post_incidents_accept id responderId now s =
    (Throw (TypeError "Cannot read properties of undefined (reading 'reporter_id')"),
     s, [])).
  { rewrite post_incidents_accept_run
      by (rewrite existsb_find, H; apply orb_true_r).
    rewrite (after_update_unknown s id _ H). now rewrite H. }
  split; [exact Ha|]. split.
  - unfold express. now rewrite Ha.
  - unfold express. rewrite post_incidents_resolve_run.
    rewrite (after_update_unknown s id _ H). rewrite H.
    unfold bind. rewrite broadcastToResponders_run, broadcastStats_run.
    unfold sent_of. simpl. reflexivity.
Qed.

Lemma unknown_incident_requests_witness :
  find (has_id 9) (db_incidents two_due) = None /\
  express (post_incidents_accept 9 3 20) two_due
    = (mkResponse 500 None, two_due, []) /\
  express (post_incidents_resolve 9 (js_int 3) 20) two_due
    = (mkResponse 200 (Some json_status_ok), two_due,
       sent_of ((broadcastToResponders (incident_updated None) ;;
                 broadcastStats 20) two_due)).
Proof.
  split; [reflexivity|].
  exact (proj2 (unknown_incident_requests two_due 9 3 20 (js_int 3) eq_refl)).
Defined.

(** ** Who may resolve *)

(** C2, as stated, fails on the server: user 3 (police) is neither the
    reporter (4) nor the responder (2) of incident 1 and is no admin, yet the
    resolve request carrying [userId = 3] is answered 200, the incident
    becomes 'resolved' and the update is broadcast. *)
Lemma resolve_endpoint_does_not_check_actor :
  In (users.mk 3 "police" "active") (db_users accepted_once) /\
  find (has_id 1) (db_incidents accepted_once)
    = Some (sample_incident 1 "accepted" (Some 2) 0) /\
  let r := express (post_incidents_resolve 1 (js_int 3) 50) accepted_once in
  result_of r = mkResponse 200 (Some json_status_ok) /\
  option_map incidents.status (find (has_id 1) (db_incidents (server_of r)))
    = Some "resolved" /\
  sent_of r <> [].
Proof.
  split; [simpl; tauto|]. split; [reflexivity|].
  vm_compute. repeat split; discriminate.
Qed.

(** C2, amended. The check is made by the dashboard's [resolveIncident]
    against its own copy of the incident list: for a logged-in user who is
    not admin and who is neither [responder_id] nor [reporter_id] of the
    listed incident (or when the incident is not listed), it shows the error
    toast and sends no request, so the server state is unchanged and nothing
    is broadcast. *)
Theorem resolveIncident_rejects_non_owner (c : App.State) (u : App.User)
    (id now : Z) (s : Server) :
  App.user c = Some u ->
  App.role u <> "admin" ->
  (forall inc,
     find (fun i => App.incident_id i =? id) (App.incidents c) = Some inc ->
     strict_eq (App.responder_id inc) (js_int (App.id u)) = false /\
     strict_eq (App.reporter_id inc) (js_int (App.id u)) = false) ->
  App.resolveIncident c id now s =
    ([App.addToast "Only the assigned responder or the reporter can resolve this."
                   "error"],
     s, []).
Proof.
  intros Hu Hrole Hinc. unfold App.resolveIncident, App.user_id, App.not_admin.
  rewrite Hu.
  destruct (find (fun i => App.incident_id i =? id) (App.incidents c)) as [inc|].
  - destruct (Hinc inc eq_refl) as [Hr Hp]. unfold App.field.
    rewrite Hr, Hp. simpl.
    apply String.eqb_neq in Hrole. now rewrite Hrole.
  - simpl. apply String.eqb_neq in Hrole. now rewrite Hrole.
Qed.

Lemma resolveIncident_rejects_non_owner_witness :
  App.user police_dashboard = Some (App.mkUser 3 "police") /\
  "police" <> "admin" /\
  App.resolveIncident police_dashboard 1 50 accepted_once =
    ([App.addToast "Only the assigned responder or the reporter can resolve this."
                   "error"],
     accepted_once, []).
Proof.
  split; [reflexivity|]. split; [discriminate|].
  apply (resolveIncident_rejects_non_owner police_dashboard
           (App.mkUser 3 "police") 1 50 accepted_once eq_refl).
  - discriminate.
  - intros inc H. vm_compute in H. injection H as <-. split; reflexivity.
Defined.

(** ** Creating an incident *)

Lemma can_insert_true s reporter :
  references_user s reporter = true ->
  Z.max (incidents_seq s) (max_rowid (db_incidents s)) < rowid_limit ->
  can_insert s reporter = true.
Proof.
  intros Hfk Hid. unfold can_insert. apply andb_true_iff.
  split; [now apply Z.ltb_lt | exact Hfk].
Qed.

Lemma sql_insert_incident_run type lat lng reporter severity now s :
  sql_insert_incident type lat lng reporter severity now s =
    let used := Z.max (incidents_seq s) (max_rowid (db_incidents s)) in
    if can_insert s reporter then
      (Return (used + 1),
       with_incidents s
         (db_incidents s ++
          [incidents.mk (used + 1) type "triggered" severity lat lng
                        reporter None now now])
         (used + 1),
       [])
    else
      (Throw (SqliteError (if rowid_limit <=? used
                           then "database or disk is full"
                           else "FOREIGN KEY constraint failed")), s, []).
Proof.
  unfold sql_insert_incident, can_insert. cbv zeta.
  rewrite Z.leb_antisym.
  destruct (Z.max (incidents_seq s) (max_rowid (db_incidents s)) <? rowid_limit);
    [|reflexivity].
  cbn [negb andb]. now destruct (references_user s reporter).
Qed.

(** A create request the INSERT of which fails stores and sends nothing. *)
Lemma post_incidents_refused b now s :
  can_insert s (cb_reporterId b) = false ->
  exists e, post_incidents b now s = (Throw (SqliteError e), s, []).
Proof.
  intros H. unfold post_incidents, bind at 1.
  rewrite sql_insert_incident_run. cbv zeta. rewrite H. eauto.
Qed.

Lemma post_incidents_run b now s :
  can_insert s (cb_reporterId b) = true ->
  let rowid := Z.max (incidents_seq s) (max_rowid (db_incidents s)) + 1 in
  post_incidents b now s =
    (Throw (ReferenceError "language"),
     with_incidents s
       (db_incidents s ++
        [incidents.mk rowid (cb_type b) "triggered" (cb_severity b)
                      (cb_lat b) (cb_lng b) (cb_reporterId b) None now now])
       rowid,
     []).
Proof.
  intros H rowid. unfold post_incidents, bind at 1.
  rewrite sql_insert_incident_run. cbv zeta. rewrite H. reflexivity.
Qed.

(** C3 (defect in the handler). A create request whose reporter is NULL or
    a row of [users] (and for which a rowid is left) stores the new row with
    status 'triggered' and then fails while building the new_incident
    message: [language] is bound in no scope, so the handler throws a
    ReferenceError before either broadcast and before [res.json], and the
    caller gets status 500 instead of the new id. *)
Theorem post_incidents_throws_before_broadcast (b : CreateBody) (now : Z)
    (s : Server) :
  references_user s (cb_reporterId b) = true ->
  Z.max (incidents_seq s) (max_rowid (db_incidents s)) < rowid_limit ->
  let rowid := Z.max (incidents_seq s) (max_rowid (db_incidents s)) + 1 in
  let r := post_incidents b now s in
  result_of r = Throw (ReferenceError "language") /\
  db_incidents (server_of r) =
    db_incidents s ++
    [ incidents.mk rowid (cb_type b) "triggered" (cb_severity b)
                   (cb_lat b) (cb_lng b) (cb_reporterId b) None now now ] /\
  sent_of r = [] /\
  result_of (express (post_incidents b now) s) = mkResponse 500 None.
Proof.
  intros Hfk Hid rowid r. subst r rowid. unfold express.
  rewrite post_incidents_run by (now apply can_insert_true).
  repeat split.
Qed.

Lemma post_incidents_throws_before_broadcast_witness :
  references_user two_due (cb_reporterId sos_body) = true /\
  Z.max (incidents_seq two_due) (max_rowid (db_incidents two_due)) < rowid_limit /\
  let r := post_incidents sos_body 5 two_due in
  result_of r = Throw (ReferenceError "language") /\
  db_incidents (server_of r) =
    db_incidents two_due ++
    [ incidents.mk 3 "SOS" "triggered" "critical" (515 # 10) (-9 # 100)
                   (Some 4) None 5 5 ] /\
  sent_of r = [] /\
  result_of (express (post_incidents sos_body 5) two_due) = mkResponse 500 None.
Proof.
  split; [reflexivity|]. split; [reflexivity|].
  exact (post_incidents_throws_before_broadcast sos_body 5 two_due
           eq_refl eq_refl).
Defined.

(** A create request naming a reporter that is no user is refused by the
    INSERT itself: nothing is stored. *)
Example post_incidents_unknown_reporter :
  express (post_incidents
             (mkCreateBody "SOS" (515 # 10) (-9 # 100) (Some 99) "critical") 5)
          two_due
  = (mkResponse 500 None, two_due, []).
Proof. vm_compute. reflexivity. Qed.

Example post_incidents_sos :
  let r := express (post_incidents sos_body 5) two_due in
  result_of r = mkResponse 500 None /\
  map incidents.id (db_incidents (server_of r)) = [1; 2; 3] /\
  sent_of r = [].
Proof. vm_compute. auto. Qed.

(** ** The registry over time *)

Lemma server_of_express h s : server_of (express h s) = server_of (h s).
Proof. unfold express. now destruct (h s) as [[[b|e] s'] out]. Qed.

Lemma server_of_post_incidents b now s :
  server_of (post_incidents b now s) =
    if can_insert s (cb_reporterId b)
    then with_incidents s (db_incidents s ++ [new_row b now s]) (next_rowid s)
    else s.
Proof.
  destruct (can_insert s (cb_reporterId b)) eqn:E.
  - now rewrite post_incidents_run.
  - destruct (post_incidents_refused b now s E) as [e ->]. reflexivity.
Qed.

Lemma sent_of_post_incidents b now s : sent_of (post_incidents b now s) = [].
Proof.
  destruct (can_insert s (cb_reporterId b)) eqn:E.
  - now rewrite post_incidents_run.
  - destruct (post_incidents_refused b now s E) as [e ->]. reflexivity.
Qed.

Lemma server_of_accept id responderId now s :
  server_of (post_incidents_accept id responderId now s) =
    if has_user responderId s || negb (existsb (has_id id) (db_incidents s))
    then after_update s (has_id id) (incidents.set_accepted responderId now)
    else s.
Proof.
  destruct (has_user responderId s || negb (existsb (has_id id) (db_incidents s)))
    eqn:E.
  - rewrite post_incidents_accept_run by exact E. cbv zeta.
    now destruct (find _ _).
  - now rewrite post_incidents_accept_refused.
Qed.

Lemma clients_after_event e s :
  clients (after_event e s) =
    match e with
    | message_auth ws (Some id) =>
        if id_truthy id then map_set id ws (clients s) else clients s
    | close ws =>
        match userId s ws with
        | Some id => if id_truthy id then map_delete id (clients s) else clients s
        | None => clients s
        end
    | _ => clients s
    end.
Proof.
  destruct e as [ws|ws [id|]|ws|now|b now|id r now|id u now]; simpl;
    try reflexivity.
  - unfold on_message_auth, bind, get_server, put_server.
    now destruct (id_truthy id).
  - unfold on_close, bind, get_server, put_server. simpl.
    destruct (userId s ws) as [id|]; [|reflexivity].
    now destruct (id_truthy id).
  - now rewrite server_of_tick.
  - rewrite server_of_express, server_of_post_incidents.
    now destruct (can_insert _ _).
  - rewrite server_of_express, server_of_accept.
    now destruct (_ || _).
  - now rewrite server_of_express, post_incidents_resolve_run.
Qed.

(** A socket that is not the entry of [u] does not become it unless it
    authenticates. *)
Lemma entry_not_taken_over u t e s :
  map_get u (clients s) <> Some t ->
  (forall decoded, e <> message_auth t decoded) ->
  map_get u (clients (after_event e s)) <> Some t.
Proof.
  intros Hs He. rewrite clients_after_event.
  destruct e as [ws|ws [id|]|ws|now|b now|id r now|id r now]; try exact Hs.
  - destruct (id_truthy id); [|exact Hs].
    destruct (Z.eq_dec id u) as [->|Hne].
    + rewrite map_get_set_eq. intros [= ->]. now apply (He (Some u)).
    + now rewrite map_get_set_neq.
  - destruct (userId s ws) as [id|]; [|exact Hs].
    destruct (id_truthy id); [|exact Hs].
    destruct (Z.eq_dec id u) as [->|Hne].
    + now rewrite map_get_delete_eq.
    + now rewrite map_get_delete_neq.
Qed.

Lemma entry_not_taken_over_run u t es :
  Forall (fun e => forall decoded, e <> message_auth t decoded) es ->
  forall s, map_get u (clients s) <> Some t ->
            map_get u (clients (after_events es s)) <> Some t.
Proof.
  induction 1 as [|e es He _ IH]; intros s Hs; [exact Hs|].
  apply IH. now apply entry_not_taken_over.
Qed.

(** C8. After user [u] authenticates on connection [t1] and then on another
    connection [t2], the registry maps [u] to [t2] and a message sent to [u]
    goes out on [t2] (when it is open) and on no other socket. Whatever
    callbacks run afterwards, as long as [t1] does not authenticate again, a
    message sent to [u] is never put on [t1]. *)
Theorem register_twice_latest_wins (s : Server) (u : Z) (t1 t2 : WebSocket)
    (m : Message) (later : list Event) :
  u <> 0 -> t1 <> t2 ->
  Forall (fun e => forall decoded, e <> message_auth t1 decoded) later ->
  let s2 := server_of ((on_message_auth t1 (Some u) ;;
                        on_message_auth t2 (Some u)) s) in
  map_get u (clients s2) = Some t2 /\
  sent_of (send_to u m s2) =
    (if is_open (readyState s2 t2) then [(t2, m)] else []) /\
  ~ In t1 (map fst (sent_of (send_to u m (after_events later s2)))).
Proof.
  intros Hu Hne Hlater s2.
  assert (Hget : map_get u (clients s2) = Some t2).
  { subst s2. unfold bind.
    rewrite (on_message_auth_run t1 u s Hu), on_message_auth_run by exact Hu.
    simpl. apply map_get_set_eq. }
  split; [exact Hget|]. split.
  - rewrite send_to_run. unfold sent_of, delivered_to. simpl. now rewrite Hget.
  - assert (Hnot : map_get u (clients (after_events later s2)) <> Some t1).
    { apply entry_not_taken_over_run; [exact Hlater|].
      rewrite Hget. intros [= E]. now apply Hne. }
    rewrite send_to_run. unfold sent_of. simpl. intros H.
    apply in_map_iff in H as (d & Hd & Hin).
    apply delivered_to_in in Hin as (_ & Hg & _).
    rewrite Hd in Hg. contradiction.
Qed.

Lemma register_twice_latest_wins_witness :
  2 <> 0 /\ 5%nat <> 6%nat /\
  Forall (fun e => forall decoded, e <> message_auth 5%nat decoded)
         [close 5%nat; tick (same_second 70); message_auth 6%nat (Some 2)] /\
  let s2 := server_of ((on_message_auth 5%nat (Some 2) ;;
                        on_message_auth 6%nat (Some 2)) empty_registry) in
  map_get 2 (clients s2) = Some 6%nat /\
  sent_of (send_to 2 (incident_accepted 1 3) s2) =
    (if is_open (readyState s2 6%nat)
     then [(6%nat, incident_accepted 1 3)] else []) /\
  ~ In 5%nat
      (map fst (sent_of (send_to 2 (incident_accepted 1 3)
         (after_events [close 5%nat; tick (same_second 70); message_auth 6%nat (Some 2)] s2)))).
Proof.
  assert (Hu : 2 <> 0) by discriminate.
  assert (Hne : 5%nat <> 6%nat) by discriminate.
  assert (Hlater : Forall (fun e => forall decoded, e <> message_auth 5%nat decoded)
                     [close 5%nat; tick (same_second 70); message_auth 6%nat (Some 2)])
    by (repeat constructor; intros decoded; discriminate).
  split; [exact Hu|]. split; [exact Hne|]. split; [exact Hlater|].
  exact (register_twice_latest_wins empty_registry 2 5%nat 6%nat
           (incident_accepted 1 3) _ Hu Hne Hlater).
Defined.

(** * Further properties *)

(** ** The incidents table across callbacks *)

Lemma db_incidents_after_event e s :
  db_incidents (after_event e s) =
    match e with
    | tick clk => map (tick_row clk) (db_incidents s)
    | http_create b now =>
        if can_insert s (cb_reporterId b)
        then db_incidents s ++ [new_row b now s]
        else db_incidents s
    | http_accept id responderId now =>
        if has_user responderId s || negb (existsb (has_id id) (db_incidents s))
        then map (apply_where (has_id id) (incidents.set_accepted responderId now))
                 (db_incidents s)
        else db_incidents s
    | http_resolve id _ now =>
        map (apply_where (has_id id) (incidents.set_status "resolved" now))
            (db_incidents s)
    | _ => db_incidents s
    end.
Proof.
  destruct e as [ws|ws [id|]|ws|now|b now|id r now|id u now]; simpl;
    try reflexivity.
  - unfold on_message_auth, bind, get_server, put_server.
    now destruct (id_truthy id).
  - unfold on_close, bind, get_server, put_server. simpl.
    destruct (userId s ws) as [id|]; [|reflexivity].
    now destruct (id_truthy id).
  - now rewrite server_of_tick.
  - rewrite server_of_express, server_of_post_incidents.
    now destruct (can_insert _ _).
  - rewrite server_of_express, server_of_accept.
    now destruct (_ || _).
  - now rewrite server_of_express, post_incidents_resolve_run.
Qed.

Lemma max_rowid_bound rows r : In r rows -> incidents.id r <= max_rowid rows.
Proof.
  induction rows as [|x rows IH]; simpl; [contradiction|].
  intros [->|H]; [lia|]. specialize (IH H). lia.
Qed.

Lemma next_rowid_fresh s : ~ In (next_rowid s) (incident_ids s).
Proof.
  unfold incident_ids, next_rowid. intros H.
  apply in_map_iff in H as (r & Hid & Hr).
  apply max_rowid_bound in Hr. lia.
Qed.

Lemma apply_where_same_origin cond assign r :
  (forall x, same_origin x (assign x)) -> same_origin r (apply_where cond assign r).
Proof.
  intros H. unfold apply_where. destruct (cond r); [apply H|].
  repeat split.
Qed.

Lemma same_origin_trans a b c : same_origin a b -> same_origin b c -> same_origin a c.
Proof.
  unfold same_origin. intros (?&?&?&?&?&?&?) (?&?&?&?&?&?&?).
  repeat split; congruence.
Qed.

Lemma tick_row_same_origin clk r : same_origin r (tick_row clk r).
Proof.
  unfold tick_row, tier2_row, tier3_row, tier4_row.
  eapply same_origin_trans; [eapply same_origin_trans|];
    apply apply_where_same_origin; intros y; repeat split.
Qed.

Lemma row_after_event e s i r :
  nth_error (db_incidents s) i = Some r ->
  exists r', nth_error (db_incidents (after_event e s)) i = Some r' /\
             same_origin r r'.
Proof.
  intros Hi. rewrite db_incidents_after_event.
  assert (Hsame : exists r', nth_error (db_incidents s) i = Some r' /\ same_origin r r')
    by (exists r; split; [assumption | repeat split]).
  assert (Hmap : forall f, (forall x, same_origin x (f x)) ->
            exists r', nth_error (map f (db_incidents s)) i = Some r' /\
                       same_origin r r').
  { intros f Hf. exists (f r). split; [|apply Hf].
    rewrite nth_error_map, Hi. reflexivity. }
  destruct e as [ws|ws d|ws|now|b now|id rid now|id u now]; try exact Hsame.
  - apply Hmap. intros x. apply tick_row_same_origin.
  - destruct (can_insert _ _); [|exact Hsame].
    exists r. split; [|repeat split].
    rewrite nth_error_app1; [assumption|].
    apply nth_error_Some. congruence.
  - destruct (_ || _); [|exact Hsame].
    apply Hmap. intros x. apply apply_where_same_origin. intros y. repeat split.
  - apply Hmap. intros x. apply apply_where_same_origin. intros y. repeat split.
Qed.

(** X1. Whatever callbacks run, an incident stays at its place in the table
    and keeps its id, type, severity, location, reporter and creation time:
    no callback deletes a row or rewrites those columns. *)
Theorem incidents_keep_their_origin (es : list Event) (s : Server) (i : nat)
    (r : incidents.row) :
  nth_error (db_incidents s) i = Some r ->
  exists r', nth_error (db_incidents (after_events es s)) i = Some r' /\
             same_origin r r'.
Proof.
  revert s r. induction es as [|e es IH]; intros s r Hi.
  - exists r. split; [assumption | repeat split].
  - destruct (row_after_event e s i r Hi) as (r1 & H1 & Ho1).
    destruct (IH _ _ H1) as (r2 & H2 & Ho2).
    exists r2. split; [exact H2 | eapply same_origin_trans; eassumption].
Qed.

Lemma incidents_keep_their_origin_witness :
  nth_error (db_incidents one_triggered) 0
    = Some (sample_incident 1 "triggered" None 0) /\
  exists r',
    nth_error (db_incidents
                 (after_events [tick (same_second 70); http_accept 1 2 80; http_create sos_body 90;
                                http_resolve 1 (js_int 2) 95] one_triggered)) 0
      = Some r' /\
    same_origin (sample_incident 1 "triggered" None 0) r'.
Proof.
  split; [reflexivity|].
  exact (incidents_keep_their_origin
           [tick (same_second 70); http_accept 1 2 80; http_create sos_body 90;
            http_resolve 1 (js_int 2) 95]
           one_triggered 0 (sample_incident 1 "triggered" None 0) eq_refl).
Defined.

Lemma incident_ids_after_event e s :
  incident_ids (after_event e s) =
    match e with
    | http_create b _ =>
        if can_insert s (cb_reporterId b)
        then incident_ids s ++ [next_rowid s]
        else incident_ids s
    | _ => incident_ids s
    end.
Proof.
  unfold incident_ids. rewrite db_incidents_after_event.
  assert (Hmap : forall f, (forall x, same_origin x (f x)) ->
            map incidents.id (map f (db_incidents s))
            = map incidents.id (db_incidents s)).
  { intros f Hf. rewrite map_map. apply map_ext. intros x. apply Hf. }
  destruct e as [ws|ws d|ws|now|b now|id rid now|id u now]; try reflexivity.
  - apply Hmap. intros x. apply tick_row_same_origin.
  - destruct (can_insert _ _); [|reflexivity]. now rewrite map_app.
  - destruct (_ || _); [|reflexivity].
    apply Hmap. intros x. apply apply_where_same_origin. intros y. repeat split.
  - apply Hmap. intros x. apply apply_where_same_origin. intros y. repeat split.
Qed.

(** X2. Incident ids stay unique: if no two rows share an id, no sequence of
    callbacks makes two rows share one; a create request takes an id that
    no existing row has. *)
Theorem incident_ids_stay_unique (es : list Event) (s : Server) :
  NoDup (incident_ids s) -> NoDup (incident_ids (after_events es s)).
Proof.
  revert s. induction es as [|e es IH]; intros s Hs; [exact Hs|].
  simpl. apply IH. rewrite incident_ids_after_event.
  destruct e; try exact Hs.
  destruct (can_insert _ _); [|exact Hs].
  apply NoDup_app; [exact Hs | repeat constructor; intros [] | ].
  intros x Hx [<-|[]]. now apply next_rowid_fresh in Hx.
Qed.

Lemma incident_ids_stay_unique_witness :
  NoDup (incident_ids two_due) /\
  NoDup (incident_ids
           (after_events [http_create sos_body 5; tick (same_second 70); http_create sos_body 75]
                         two_due)).
Proof.
  assert (H : NoDup (incident_ids two_due)).
  { repeat constructor; simpl; intuition discriminate. }
  split; [exact H|].
  exact (incident_ids_stay_unique
           [http_create sos_body 5; tick (same_second 70); http_create sos_body 75] two_due H).
Defined.

(** ** Create, look up, list *)

Lemma find_has_id_absent id rows :
  ~ In id (map incidents.id rows) -> find (has_id id) rows = None.
Proof.
  induction rows as [|r rows IH]; simpl; [reflexivity|].
  intros H. unfold has_id at 1. destruct (incidents.id r =? id) eqn:E.
  - apply Z.eqb_eq in E. elim H. now left.
  - apply IH. intros Hin. apply H. now right.
Qed.

Lemma find_app_absent {A} (p : A -> bool) l1 l2 :
  find p l1 = None -> find p (l1 ++ l2) = find p l2.
Proof.
  induction l1 as [|x l1 IH]; simpl; [reflexivity|].
  destruct (p x); [discriminate | exact IH].
Qed.

(** X3. The row written by a create request whose reporter is NULL or a row
    of [users] (a rowid being left) is there afterwards although the request
    itself fails: looking up the id it was given returns that row,
    'triggered', without responder, with the request's fields; the table has
    one row more and the active list ends with the new row. *)
Theorem created_incident_can_be_looked_up (b : CreateBody) (now : Z) (s : Server) :
  references_user s (cb_reporterId b) = true ->
  Z.max (incidents_seq s) (max_rowid (db_incidents s)) < rowid_limit ->
  let s' := after_event (http_create b now) s in
  result_of (select_incident (next_rowid s) s') = Return (Some (new_row b now s)) /\
  List.length (db_incidents s') = S (List.length (db_incidents s)) /\
  result_of (get_incidents_active s') =
    Return (filter is_active_status (db_incidents s) ++ [new_row b now s]).
Proof.
  intros Hfk Hrowid s'. subst s'.
  unfold select_incident, get_incidents_active, select_incidents, result_of.
  rewrite db_incidents_after_event. cbn [fst]. fold (has_id (next_rowid s)).
  rewrite (can_insert_true _ _ Hfk Hrowid).
  split; [|split].
  - rewrite find_app_absent by (apply find_has_id_absent, next_rowid_fresh).
    cbn [find].
    replace (has_id _ _) with true by (symmetry; exact (Z.eqb_refl _)).
    reflexivity.
  - rewrite length_app. simpl. lia.
  - now rewrite filter_app.
Qed.

Lemma created_incident_can_be_looked_up_witness :
  references_user two_due (cb_reporterId sos_body) = true /\
  Z.max (incidents_seq two_due) (max_rowid (db_incidents two_due)) < rowid_limit /\
  let s' := after_event (http_create sos_body 5) two_due in
  result_of (select_incident 3 s') = Return (Some (new_row sos_body 5 two_due)) /\
  List.length (db_incidents s') = 3%nat /\
  result_of (get_incidents_active s') =
    Return (db_incidents two_due ++ [new_row sos_body 5 two_due]).
Proof.
  split; [reflexivity|]. split; [reflexivity|].
  exact (created_incident_can_be_looked_up sos_body 5 two_due eq_refl eq_refl).
Defined.

(** ** Who is told about an accept *)

Lemma filter_incident_accepted_responders s inc :
  filter is_incident_accepted (responders_out s (incident_updated inc)) = [].
Proof.
  unfold responders_out. rewrite filter_flat_map.
  induction (filter is_active_responder (db_users s)) as [|r l IH]; simpl;
    [reflexivity|].
  rewrite IH, app_nil_r. unfold delivered_to.
  destruct (map_get (users.id r) (clients s)) as [c|]; [|reflexivity].
  destruct (is_open (readyState s c)); reflexivity.
Qed.

Lemma filter_incident_accepted_stats s now :
  filter is_incident_accepted (stats_out s now) = [].
Proof.
  unfold stats_out. induction (open_entries s) as [|e l IH]; simpl; auto.
Qed.

Lemma filter_incident_accepted_notify s reporter id responderId :
  filter is_incident_accepted
         (notify_out s reporter (incident_accepted id responderId))
  = notify_out s reporter (incident_accepted id responderId).
Proof.
  destruct reporter as [u|]; [|reflexivity]. simpl. unfold delivered_to.
  destruct (map_get u (clients s)) as [c|]; [|reflexivity].
  destruct (is_open (readyState s c)); reflexivity.
Qed.

(** X4. Of an accept request for an existing incident by a responder that
    is a row of [users], the incident_accepted message goes to the reporter
    alone: it is sent once, on the socket registered for the incident's
    reporter when that socket is open, and not at all when the reporter is
    NULL, not registered or not open. A request whose [responderId] names
    no user fails at the UPDATE and sends nothing at all. *)
Theorem accept_notifies_reporter_only (s : Server) (id responderId now : Z)
    (r0 : incidents.row) :
  find (has_id id) (db_incidents s) = Some r0 ->
  (has_user responderId s = true ->
   filter is_incident_accepted
          (sent_of (post_incidents_accept id responderId now s)) =
     match incidents.reporter_id r0 with
     | Some reporter =>
         match map_get reporter (clients s) with
         | Some ws =>
             if is_open (readyState s ws)
             then [(ws, incident_accepted id responderId)] else []
         | None => []
         end
     | None => []
     end) /\
  (has_user responderId s = false ->
   sent_of (post_incidents_accept id responderId now s) = []).
Proof.
  intros H. split; intros Hu.
  - rewrite post_incidents_accept_run by (now rewrite Hu).
    unfold after_update. simpl.
    rewrite find_after_update by reflexivity. rewrite H. simpl.
    unfold sent_of. simpl. rewrite !filter_app.
    rewrite filter_incident_accepted_responders, filter_incident_accepted_stats.
    rewrite filter_incident_accepted_notify, !app_nil_r.
    destruct (incidents.reporter_id r0); reflexivity.
  - rewrite post_incidents_accept_refused; [reflexivity|].
    now rewrite Hu, existsb_find, H.
Qed.

Lemma accept_notifies_reporter_only_witness :
  find (has_id 1) (db_incidents one_triggered)
    = Some (sample_incident 1 "triggered" None 0) /\
  has_user 2 one_triggered = true /\
  filter is_incident_accepted
         (sent_of (post_incidents_accept 1 2 30 one_triggered))
    = [(8%nat, incident_accepted 1 2)].
Proof.
  split; [reflexivity|]. split; [reflexivity|].
  exact (proj1 (accept_notifies_reporter_only one_triggered 1 2 30
                  (sample_incident 1 "triggered" None 0) eq_refl) eq_refl).
Defined.

(** ** The active list *)

Lemma filter_map_apply_where_resolved id now rows :
  filter is_active_status
         (map (apply_where (has_id id) (incidents.set_status "resolved" now)) rows)
  = filter (fun r => negb (has_id id r)) (filter is_active_status rows).
Proof.
  induction rows as [|r rows IH]; cbn [map filter]; [reflexivity|].
  assert (Hr : apply_where (has_id id) (incidents.set_status "resolved" now) r
               = if has_id id r then incidents.set_status "resolved" now r else r)
    by reflexivity.
  rewrite Hr. clear Hr. destruct (has_id id r) eqn:E.
  - replace (is_active_status (incidents.set_status "resolved" now r))
      with false by reflexivity.
    rewrite IH. destruct (is_active_status r); cbn [filter negb];
      rewrite ?E; reflexivity.
  - rewrite IH. destruct (is_active_status r); cbn [filter negb];
      rewrite ?E; reflexivity.
Qed.

(** X5. A resolve request removes from the active list ([GET
    /api/incidents/active]) exactly the rows with the request's id and
    leaves the other entries and their order as they were. *)
Theorem resolve_removes_from_active_list (s : Server) (id now : Z)
    (userId : JsValue) :
  let s' := after_event (http_resolve id userId now) s in
  result_of (get_incidents_active s') =
    Return (filter (fun r => negb (has_id id r))
                   (filter is_active_status (db_incidents s))).
Proof.
  intros s'. subst s'. unfold get_incidents_active, select_incidents, result_of.
  rewrite db_incidents_after_event. cbn [fst].
  now rewrite filter_map_apply_where_resolved.
Qed.

(** X6. An accept request by a responder that is a row of [users] puts the
    incident into the active list whatever its status was, so accepting a
    resolved (or closed) incident makes it active again. *)
Theorem accept_makes_incident_active (s : Server) (id responderId now : Z)
    (r0 : incidents.row) :
  In r0 (db_incidents s) -> incidents.id r0 = id ->
  has_user responderId s = true ->
  let s' := after_event (http_accept id responderId now) s in
  exists rows,
    result_of (get_incidents_active s') = Return rows /\
    In (incidents.set_accepted responderId now r0) rows.
Proof.
  intros Hin Hid Hu s'. subst s'.
  unfold get_incidents_active, select_incidents, result_of.
  rewrite db_incidents_after_event. cbn [fst]. rewrite Hu. cbn [orb].
  eexists. split; [reflexivity|].
  apply filter_In. split; [|reflexivity].
  apply in_map_iff. exists r0. split; [|assumption].
  unfold apply_where, has_id. apply Z.eqb_eq in Hid. now rewrite Hid.
Qed.

Lemma accept_makes_incident_active_witness :
  In (sample_incident 1 "resolved" (Some 2) 0) (db_incidents resolved_once) /\
  has_user 3 resolved_once = true /\
  result_of (get_incidents_active resolved_once) = Return [] /\
  exists rows,
    result_of (get_incidents_active (after_event (http_accept 1 3 50) resolved_once))
      = Return rows /\
    In (incidents.set_accepted 3 50 (sample_incident 1 "resolved" (Some 2) 0)) rows.
Proof.
  assert (H : In (sample_incident 1 "resolved" (Some 2) 0) (db_incidents resolved_once))
    by (left; reflexivity).
  split; [exact H|]. split; [reflexivity|]. split; [reflexivity|].
  exact (accept_makes_incident_active resolved_once 1 3 50 _ H eq_refl eq_refl).
Defined.

(** An accept by an id that is no user leaves the resolved incident out of
    the active list. *)
Example accept_by_unknown_responder_stays_resolved :
  result_of (get_incidents_active (after_event (http_accept 1 99 50) resolved_once))
  = Return [].
Proof. vm_compute. reflexivity. Qed.

(** ** The two ways to read the stats *)

Lemma filter_all {A} (l : list A) : filter (fun _ => true) l = l.
Proof. induction l as [|x l IH]; simpl; [reflexivity | now rewrite IH]. Qed.

(** X7. [GET /api/stats/summary] and the stats_update broadcast agree: the
    route answers, without changing or sending anything, the very record
    that [broadcastStats] puts on every socket it writes to at the same
    state and clock reading. *)
Theorem stats_summary_matches_broadcast (now : Z) (s : Server) :
  exists st,
    get_stats_summary now s = (Return st, s, []) /\
    forall d, In d (sent_of (broadcastStats now s)) -> snd d = stats_update st.
Proof.
  exists (compute_stats s now). split.
  { unfold get_stats_summary, bind, sql_count_incidents, sql_count_users, ret.
    cbv beta iota zeta. unfold compute_stats, count. simpl.
    now rewrite filter_all. }
  rewrite broadcastStats_run. unfold sent_of, stats_out. simpl.
  intros d Hd. apply in_map_iff in Hd as (e & <- & _). reflexivity.
Qed.

Lemma count_after_update (p : incidents.row -> bool)
    (f : incidents.row -> incidents.row) id rows r0 :
  NoDup (map incidents.id rows) -> In r0 rows -> incidents.id r0 = id ->
  (List.length (filter p (map (apply_where (has_id id) f) rows))
   + (if p r0 then 1 else 0)
   = List.length (filter p rows) + (if p (f r0) then 1 else 0))%nat.
Proof.
  intros Hnd Hin Hid. induction rows as [|x rows IH]; [contradiction|].
  simpl in Hnd. apply NoDup_cons_iff in Hnd as [Hx Hnd].
  cbn [map filter]. destruct Hin as [->|Hin].
  - assert (E : has_id id r0 = true) by (unfold has_id; now apply Z.eqb_eq).
    unfold apply_where at 1. rewrite E.
    rewrite update_unknown
      by (apply find_has_id_absent; now rewrite <- Hid).
    destruct (p r0), (p (f r0)); simpl; lia.
  - assert (E : has_id id x = false).
    { unfold has_id. apply Z.eqb_neq. intros Hx'. apply Hx.
      rewrite Hx', <- Hid. now apply in_map. }
    unfold apply_where at 1. rewrite E. specialize (IH Hnd Hin).
    destruct (p x); simpl; lia.
Qed.

(** X8. With unique incident ids, resolving an existing incident at [now]
    leaves the total and the responder count of the stats as they were and
    raises [resolvedToday] by one, unless the incident already counted as
    resolved today, in which case the stats do not change. *)
Theorem resolve_counts_once_today (s : Server) (id now : Z) (userId : JsValue)
    (r0 : incidents.row) :
  NoDup (incident_ids s) -> In r0 (db_incidents s) -> incidents.id r0 = id ->
  let s' := after_event (http_resolve id userId now) s in
  totalIncidents (compute_stats s' now) = totalIncidents (compute_stats s now) /\
  activeResponders (compute_stats s' now) = activeResponders (compute_stats s now) /\
  resolvedToday (compute_stats s' now) =
    resolvedToday (compute_stats s now) + (if counted_today now r0 then 0 else 1).
Proof.
  intros Hnd Hin Hid s'.
  assert (Hdb : db_incidents s' =
    map (apply_where (has_id id) (incidents.set_status "resolved" now))
        (db_incidents s)) by (subst s'; apply db_incidents_after_event).
  assert (Hus : db_users s' = db_users s).
  { subst s'. simpl. now rewrite server_of_express, post_incidents_resolve_run. }
  unfold compute_stats. cbn [totalIncidents activeResponders resolvedToday].
  rewrite Hus, Hdb. split; [now rewrite length_map|]. split; [reflexivity|].
  unfold count. fold (counted_today now).
  pose proof (count_after_update (counted_today now)
                (incidents.set_status "resolved" now) id (db_incidents s) r0
                Hnd Hin Hid) as Hc.
  replace (counted_today now (incidents.set_status "resolved" now r0))
    with true in Hc
    by (unfold counted_today; simpl; now rewrite Z.eqb_refl).
  destruct (counted_today now r0); lia.
Qed.

Lemma resolve_counts_once_today_witness :
  NoDup (incident_ids accepted_once) /\
  In (sample_incident 1 "accepted" (Some 2) 0) (db_incidents accepted_once) /\
  let s' := after_event (http_resolve 1 (js_int 2) 50) accepted_once in
  totalIncidents (compute_stats s' 50) = totalIncidents (compute_stats accepted_once 50) /\
  activeResponders (compute_stats s' 50)
    = activeResponders (compute_stats accepted_once 50) /\
  resolvedToday (compute_stats s' 50) =
    resolvedToday (compute_stats accepted_once 50)
    + (if counted_today 50 (sample_incident 1 "accepted" (Some 2) 0) then 0 else 1).
Proof.
  assert (Hnd : NoDup (incident_ids accepted_once))
    by (repeat constructor; simpl; tauto).
  assert (Hin : In (sample_incident 1 "accepted" (Some 2) 0)
                   (db_incidents accepted_once)) by (left; reflexivity).
  split; [exact Hnd|]. split; [exact Hin|].
  exact (resolve_counts_once_today accepted_once 1 50 (js_int 2) _ Hnd Hin eq_refl).
Defined.

(** ** More on the timer *)

Lemma tier2_where_tick_row clk r : tier2_where (tier2_now clk) (tick_row clk r) = false.
Proof.
  unfold tick_row.
  destruct (tier4_where (tier4_now clk)
              (tier3_row (tier3_now clk) (tier2_row (tier2_now clk) r))) eqn:E4;
    [now rewrite (tier4_row_true _ _ E4) | rewrite (tier4_row_false _ _ E4)].
  destruct (tier3_where (tier3_now clk) (tier2_row (tier2_now clk) r)) eqn:E3;
    [now rewrite (tier3_row_true _ _ E3) | rewrite (tier3_row_false _ _ E3)].
  destruct (tier2_where (tier2_now clk) r) eqn:E2;
    [now rewrite (tier2_row_true _ _ E2) | now rewrite (tier2_row_false _ _ E2)].
Qed.

Lemma tier3_where_tick_row clk r : tier3_where (tier3_now clk) (tick_row clk r) = false.
Proof.
  unfold tick_row.
  destruct (tier4_where (tier4_now clk)
              (tier3_row (tier3_now clk) (tier2_row (tier2_now clk) r))) eqn:E4;
    [now rewrite (tier4_row_true _ _ E4) | rewrite (tier4_row_false _ _ E4)].
  destruct (tier3_where (tier3_now clk) (tier2_row (tier2_now clk) r)) eqn:E3;
    [now rewrite (tier3_row_true _ _ E3) | now rewrite (tier3_row_false _ _ E3)].
Qed.

Lemma tier4_where_tick_row clk r : tier4_where (tier4_now clk) (tick_row clk r) = false.
Proof.
  unfold tick_row.
  destruct (tier4_where (tier4_now clk)
              (tier3_row (tier3_now clk) (tier2_row (tier2_now clk) r))) eqn:E4;
    [now rewrite (tier4_row_true _ _ E4) | now rewrite (tier4_row_false _ _ E4)].
Qed.

Lemma escalates_after_tick_row clk r : escalates clk (tick_row clk r) = false.
Proof.
  unfold escalates.
  rewrite tier2_where_tick_row, (tier2_row_false _ _ (tier2_where_tick_row clk r)).
  rewrite tier3_where_tick_row, (tier3_row_false _ _ (tier3_where_tick_row clk r)).
  now rewrite tier4_where_tick_row.
Qed.

Lemma existsb_escalates_after_tick clk rows :
  existsb (escalates clk) (map (tick_row clk) rows) = false.
Proof.
  induction rows as [|r rows IH]; simpl; [reflexivity|].
  now rewrite escalates_after_tick_row, IH.
Qed.

(** X9. A second tick at the same clock readings does nothing: it leaves the
    state the first tick produced and sends no message. *)
Theorem tick_twice_same_second (clk : TickClock) (s : Server) :
  let once := escalation_tick clk s in
  let twice := escalation_tick clk (server_of once) in
  server_of twice = server_of once /\ sent_of twice = [].
Proof.
  intros once twice. subst once twice.
  rewrite (escalation_tick_run clk s). unfold server_of at 2 4. simpl.
  rewrite escalation_tick_run. unfold server_of, sent_of. simpl.
  rewrite existsb_escalates_after_tick. split; [|reflexivity].
  unfold after_tick. simpl.
  now rewrite (map_tick_row_idle clk _ (existsb_escalates_after_tick clk _)).
Qed.

Lemma missed_window_later now0 now r :
  now0 <= now -> missed_window now0 r = true -> missed_window now r = true.
Proof.
  unfold missed_window, age. intros Hle H.
  apply orb_true_iff in H as [H|H]; apply andb_true_iff in H as [Hs Ha];
    apply Z.leb_le in Ha; rewrite Hs; simpl.
  - apply orb_true_iff. left. apply Z.leb_le. lia.
  - apply orb_true_iff. right. apply Z.leb_le. lia.
Qed.

Lemma missed_window_idle now0 clk r :
  now0 <= tier2_now clk -> now0 <= tier3_now clk ->
  missed_window now0 r = true -> tick_row clk r = r.
Proof.
  intros H2 H3 H. apply tick_row_idle.
  pose proof (missed_window_later _ _ r H2 H) as M2.
  pose proof (missed_window_later _ _ r H3 H) as M3.
  clear H. unfold missed_window in M2, M3.
  assert (E2 : tier2_where (tier2_now clk) r = false).
  { unfold tier2_where.
    apply orb_true_iff in M2 as [M|M]; apply andb_true_iff in M as [Hs Ha];
      apply String.eqb_eq in Hs; apply Z.leb_le in Ha; rewrite Hs; simpl;
      [|reflexivity].
    destruct (age (tier2_now clk) r <=? 119) eqn:A; [apply Z.leb_le in A; lia|].
    apply andb_false_r. }
  assert (E3 : tier3_where (tier3_now clk) r = false).
  { unfold tier3_where.
    apply orb_true_iff in M3 as [M|M]; apply andb_true_iff in M as [Hs Ha];
      apply String.eqb_eq in Hs; apply Z.leb_le in Ha; rewrite Hs; simpl;
      [reflexivity|].
    destruct (age (tier3_now clk) r <=? 179) eqn:A; [apply Z.leb_le in A; lia|].
    apply andb_false_r. }
  assert (E4 : tier4_where (tier4_now clk) r = false).
  { unfold tier4_where.
    apply orb_true_iff in M2 as [M|M]; apply andb_true_iff in M as [Hs _];
      apply String.eqb_eq in Hs; now rewrite Hs. }
  unfold escalates.
  now rewrite E2, (tier2_row_false _ _ E2), E3, (tier3_row_false _ _ E3), E4.
Qed.

(** X10. A missed window is missed for good: an incident that is still
    'triggered' at 120 s of age or more, or still 'escalating' at 180 s or
    more, is left untouched by every later tick, whatever their number and
    whatever the clock reads at each of their statements from then on. *)
Theorem missed_window_is_permanent (now0 : Z) (clks : list TickClock) (s : Server)
    (i : nat) (r : incidents.row) :
  nth_error (db_incidents s) i = Some r ->
  missed_window now0 r = true ->
  Forall (fun clk => now0 <= tier2_now clk /\ now0 <= tier3_now clk) clks ->
  Forall (fun s' => nth_error (db_incidents s') i = Some r) (run_ticks clks s).
Proof.
  intros Hi Hmiss Hclks. revert s Hi.
  induction Hclks as [|clk clks [H2 H3] _ IH]; intros s Hi; simpl; [constructor|].
  assert (Hi' : nth_error (db_incidents (server_of (escalation_tick clk s))) i
                = Some r).
  { rewrite nth_error_after_tick, Hi. simpl.
    now rewrite (missed_window_idle now0 clk r H2 H3 Hmiss). }
  constructor; [exact Hi' | apply IH, Hi'].
Qed.

Lemma missed_window_is_permanent_witness :
  nth_error (db_incidents stale) 0 = Some (sample_incident 1 "triggered" None 0) /\
  missed_window 120 (sample_incident 1 "triggered" None 0) = true /\
  Forall (fun clk => 120 <= tier2_now clk /\ 120 <= tier3_now clk)
         [same_second 120; same_second 150; mkTickClock 179 180 180 (fun _ => 180);
          same_second 100000] /\
  Forall (fun s' => nth_error (db_incidents s') 0
                    = Some (sample_incident 1 "triggered" None 0))
         (run_ticks [same_second 120; same_second 150;
                     mkTickClock 179 180 180 (fun _ => 180);
                     same_second 100000] stale).
Proof.
  assert (H : Forall (fun clk => 120 <= tier2_now clk /\ 120 <= tier3_now clk)
                [same_second 120; same_second 150;
                 mkTickClock 179 180 180 (fun _ => 180); same_second 100000])
    by (repeat constructor; intros E; discriminate E).
  split; [reflexivity|]. split; [reflexivity|]. split; [exact H|].
  exact (missed_window_is_permanent 120 _ stale 0
           (sample_incident 1 "triggered" None 0) eq_refl eq_refl H).
Defined.

(** X11. The later tiers: an 'escalating' incident is moved to
    'hospital_notified' exactly when its age is 120 to 179 s at the second
    UPDATE's reading of the clock, and then on to 'command_alerted' within
    the same tick when the third UPDATE reads an age above 180 s; a
    'hospital_notified' incident becomes 'command_alerted' at every age
    above 180 s (at the third UPDATE's reading) and not at 180 s itself; a
    'command_alerted' incident is left alone. *)
Theorem later_tier_windows (clk : TickClock) (s : Server) (i : nat)
    (r : incidents.row) :
  nth_error (db_incidents s) i = Some r ->
  let after := nth_error (db_incidents (server_of (escalation_tick clk s))) i in
  (incidents.status r = "escalating" ->
   after = Some (if (120 <=? age (tier3_now clk) r) && (age (tier3_now clk) r <=? 179)
                 then if 180 <? age (tier4_now clk) r
                      then incidents.set_status "command_alerted" (tier4_now clk) r
                      else incidents.set_status "hospital_notified" (tier3_now clk) r
                 else r)) /\
  (incidents.status r = "hospital_notified" ->
   after = Some (if 180 <? age (tier4_now clk) r
                 then incidents.set_status "command_alerted" (tier4_now clk) r
                 else r)) /\
  (incidents.status r = "command_alerted" -> after = Some r).
Proof.
  intros Hi after. subst after. rewrite nth_error_after_tick, Hi. simpl.
  unfold tick_row.
  split; [|split]; intros Hst; f_equal;
    rewrite (tier2_row_false (tier2_now clk) r)
      by (unfold tier2_where; now rewrite Hst).
  - destruct ((120 <=? age (tier3_now clk) r) && (age (tier3_now clk) r <=? 179))
      eqn:E3.
    + rewrite tier3_row_true by (unfold tier3_where; now rewrite Hst).
      destruct (180 <? age (tier4_now clk) r) eqn:E4.
      * rewrite tier4_row_true by (unfold tier4_where; exact E4). reflexivity.
      * rewrite tier4_row_false by (unfold tier4_where; exact E4). reflexivity.
    + rewrite tier3_row_false by (unfold tier3_where; now rewrite Hst).
      rewrite tier4_row_false by (unfold tier4_where; now rewrite Hst).
      reflexivity.
  - rewrite tier3_row_false by (unfold tier3_where; now rewrite Hst).
    destruct (180 <? age (tier4_now clk) r) eqn:E4.
    + rewrite tier4_row_true by (unfold tier4_where; now rewrite Hst).
      reflexivity.
    + rewrite tier4_row_false by (unfold tier4_where; now rewrite Hst).
      reflexivity.
  - rewrite tier3_row_false by (unfold tier3_where; now rewrite Hst).
    rewrite tier4_row_false by (unfold tier4_where; now rewrite Hst).
    reflexivity.
Qed.

Lemma later_tier_windows_witness :
  nth_error (db_incidents stale) 2
    = Some (sample_incident 3 "hospital_notified" None 0) /\
  nth_error (db_incidents stale) 1
    = Some (sample_incident 2 "escalating" None 0) /\
  nth_error (db_incidents (server_of (escalation_tick (same_second 180) stale))) 2
    = Some (sample_incident 3 "hospital_notified" None 0) /\
  nth_error (db_incidents (server_of (escalation_tick (same_second 181) stale))) 2
    = Some (incidents.set_status "command_alerted" 181
              (sample_incident 3 "hospital_notified" None 0)) /\
  nth_error (db_incidents
               (server_of (escalation_tick (mkTickClock 179 179 181 (fun _ => 181))
                                           stale))) 1
    = Some (incidents.set_status "command_alerted" 181
              (sample_incident 2 "escalating" None 0)).
Proof.
  split; [reflexivity|]. split; [reflexivity|]. split; [|split].
  - exact (proj1 (proj2 (later_tier_windows (same_second 180) stale 2
             (sample_incident 3 "hospital_notified" None 0) eq_refl)) eq_refl).
  - exact (proj1 (proj2 (later_tier_windows (same_second 181) stale 2
             (sample_incident 3 "hospital_notified" None 0) eq_refl)) eq_refl).
  - exact (proj1 (later_tier_windows (mkTickClock 179 179 181 (fun _ => 181)) stale 1
             (sample_incident 2 "escalating" None 0) eq_refl) eq_refl).
Defined.

(** X12. A tick at which no incident is due, whatever the clock reads at
    each of its statements, changes nothing and sends nothing, also when
    incidents sit in escalated tiers from earlier ticks. *)
Theorem quiet_tick_is_silent (clk : TickClock) (s : Server) :
  (forall r, In r (db_incidents s) ->
             tier2_where (tier2_now clk) r = false /\
             tier3_where (tier3_now clk) r = false /\
             tier4_where (tier4_now clk) r = false) ->
  escalation_tick clk s = (Return tt, s, []).
Proof.
  intros H.
  assert (E : existsb (escalates clk) (db_incidents s) = false).
  { destruct (existsb (escalates clk) (db_incidents s)) eqn:E; [|reflexivity].
    apply existsb_exists in E as (r & Hr & Hesc).
    destruct (H r Hr) as (E2 & E3 & E4). unfold escalates in Hesc.
    rewrite E2, (tier2_row_false _ _ E2), E3, (tier3_row_false _ _ E3), E4 in Hesc.
    discriminate. }
  rewrite escalation_tick_run, E. unfold after_tick.
  rewrite (map_tick_row_idle clk _ E). now destruct s.
Qed.

Lemma quiet_tick_is_silent_witness :
  (forall r, In r (db_incidents stale) ->
             tier2_where 180 r = false /\ tier3_where 180 r = false /\
             tier4_where 180 r = false) /\
  escalation_tick (same_second 180) stale = (Return tt, stale, []).
Proof.
  assert (H : forall r, In r (db_incidents stale) ->
              tier2_where 180 r = false /\ tier3_where 180 r = false /\
              tier4_where 180 r = false).
  { intros r Hr. simpl in Hr.
    destruct Hr as [<-|[<-|[<-|[]]]]; repeat split; reflexivity. }
  split; [exact H|].
  exact (quiet_tick_is_silent (same_second 180) stale H).
Defined.

(** ** More on the registry *)

Lemma in_keys_map_set {V} k (v : V) m x :
  In x (map fst (map_set k v m)) -> x = k \/ In x (map fst m).
Proof.
  intros H. apply in_map_iff in H as (e & <- & He).
  apply in_map_set in He as [->|He]; [now left|].
  right. now apply in_map.
Qed.

Lemma NoDup_keys_map_set {V} k (v : V) m :
  NoDup (map fst m) -> NoDup (map fst (map_set k v m)).
Proof.
  induction m as [|[k' v'] m IH]; simpl; intros H.
  - repeat constructor. intros [].
  - apply NoDup_cons_iff in H as [Hk' Hm].
    destruct (k' =? k) eqn:E; simpl.
    + apply Z.eqb_eq in E. subst k'. now constructor.
    + constructor; [|now apply IH].
      intros Hin. apply in_keys_map_set in Hin as [->|Hin]; [|contradiction].
      now rewrite Z.eqb_refl in E.
Qed.

Lemma NoDup_keys_filter {V} (p : Z * V -> bool) m :
  NoDup (map fst m) -> NoDup (map fst (filter p m)).
Proof.
  induction m as [|e m IH]; simpl; intros H; [constructor|].
  apply NoDup_cons_iff in H as [He Hm].
  destruct (p e); simpl; [|now apply IH].
  constructor; [|now apply IH].
  intros Hin. apply He. apply in_map_iff in Hin as (x & Hx & Hin).
  apply filter_In in Hin as [Hin _]. rewrite <- Hx. now apply in_map.
Qed.

Lemma Forall_keys_map_set {V} (P : Z -> Prop) k (v : V) m :
  P k -> Forall P (map fst m) -> Forall P (map fst (map_set k v m)).
Proof.
  intros Hk H. apply Forall_forall. intros x Hx.
  apply in_keys_map_set in Hx as [->|Hx]; [assumption|].
  now apply (proj1 (Forall_forall _ _) H).
Qed.

Lemma Forall_keys_filter {V} (P : Z -> Prop) (p : Z * V -> bool) m :
  Forall P (map fst m) -> Forall P (map fst (filter p m)).
Proof.
  intros H. apply Forall_forall. intros x Hx.
  apply in_map_iff in Hx as (e & <- & He). apply filter_In in He as [He _].
  apply (proj1 (Forall_forall _ _) H). now apply in_map.
Qed.

Lemma id_truthy_nonzero id : id_truthy id = true -> id <> 0.
Proof. unfold id_truthy. rewrite negb_true_iff. apply Z.eqb_neq. Qed.

(** X13. One entry per user: if the registry's keys are pairwise different
    and none is 0, they stay so under every sequence of callbacks. *)
Theorem registry_keys_stay_unique (es : list Event) (s : Server) :
  NoDup (registry_keys s) /\ Forall (fun k => k <> 0) (registry_keys s) ->
  NoDup (registry_keys (after_events es s)) /\
  Forall (fun k => k <> 0) (registry_keys (after_events es s)).
Proof.
  revert s. induction es as [|e es IH]; intros s Hs; [exact Hs|].
  simpl. apply IH. unfold registry_keys in *. rewrite clients_after_event.
  destruct Hs as [Hnd Hnz].
  destruct e as [ws|ws [id|]|ws|now|b now|id r now|id u now]; try (split; assumption).
  - destruct (id_truthy id) eqn:E; [|split; assumption]. split.
    + now apply NoDup_keys_map_set.
    + apply Forall_keys_map_set; [now apply id_truthy_nonzero | assumption].
  - destruct (userId s ws) as [id|]; [|split; assumption].
    destruct (id_truthy id); [|split; assumption]. split.
    + now apply NoDup_keys_filter.
    + now apply Forall_keys_filter.
Qed.

Lemma registry_keys_stay_unique_witness :
  (NoDup (registry_keys civilian_online) /\
   Forall (fun k => k <> 0) (registry_keys civilian_online)) /\
  NoDup (registry_keys
           (after_events [message_auth 9%nat (Some 2); message_auth 9%nat (Some 3);
                          close 7%nat; close 9%nat] civilian_online)) /\
  Forall (fun k => k <> 0)
         (registry_keys
            (after_events [message_auth 9%nat (Some 2); message_auth 9%nat (Some 3);
                           close 7%nat; close 9%nat] civilian_online)).
Proof.
  assert (H : NoDup (registry_keys civilian_online) /\
              Forall (fun k => k <> 0) (registry_keys civilian_online)).
  { split.
    - repeat constructor; simpl; intuition discriminate.
    - repeat constructor; intros E; discriminate E. }
  split; [exact H|].
  exact (registry_keys_stay_unique
           [message_auth 9%nat (Some 2); message_auth 9%nat (Some 3);
            close 7%nat; close 9%nat] civilian_online H).
Defined.

Lemma delivered_to_reaches s id m d : In d (delivered_to s id m) -> reaches s d.
Proof.
  intros H. apply delivered_to_in in H as (_ & Hg & Ho). split; [|exact Ho].
  apply map_get_in in Hg. now apply (in_map snd) in Hg.
Qed.

Lemma notify_out_reaches s reporter m d : In d (notify_out s reporter m) -> reaches s d.
Proof. destruct reporter; [apply delivered_to_reaches | intros []]. Qed.

Lemma responders_out_reaches s m d : In d (responders_out s m) -> reaches s d.
Proof.
  unfold responders_out. intros H. apply in_flat_map in H as (r & _ & H).
  now apply delivered_to_reaches in H.
Qed.

Lemma stats_out_reaches s now d : In d (stats_out s now) -> reaches s d.
Proof.
  unfold stats_out, open_entries. intros H.
  apply in_map_iff in H as (e & <- & He). apply filter_In in He as [He Ho].
  split; simpl.
  - now apply in_map.
  - destruct (readyState s (snd e)); try discriminate. reflexivity.
Qed.

Lemma sent_of_express h s : sent_of (express h s) = sent_of (h s).
Proof. unfold express. now destruct (h s) as [[[b|e] s'] out]. Qed.

(** X14. No callback writes to a socket that the registry does not hold or
    that is not open when the callback starts: every message sent by a
    socket handler, a tick or an HTTP request goes to a registered, open
    socket. *)
Theorem callbacks_write_to_registered_open_sockets (e : Event) (s : Server)
    (d : Delivery) :
  In d (sent_by_event e s) -> reaches s d.
Proof.
  destruct e as [ws|ws [id|]|ws|now|b now|id r now|id u now]; simpl.
  - intros [].
  - unfold on_message_auth, bind, get_server, put_server.
    destruct (id_truthy id); intros [].
  - intros [].
  - unfold on_close, bind, get_server, put_server. simpl.
    destruct (userId s ws) as [id|]; [destruct (id_truthy id)|]; intros [].
  - rewrite escalation_tick_run. unfold sent_of. simpl.
    destruct (existsb (escalates now) (db_incidents s)); [|intros []].
    intros H. apply in_flat_map in H as (inc & _ & H).
    apply in_app_or in H as [H|H].
    + now apply responders_out_reaches in H.
    + now apply stats_out_reaches in H.
  - rewrite sent_of_express, sent_of_post_incidents. intros [].
  - rewrite sent_of_express.
    destruct (has_user r s || negb (existsb (has_id id) (db_incidents s))) eqn:E;
      [|rewrite post_incidents_accept_refused by exact E; intros []].
    rewrite post_incidents_accept_run by exact E. unfold sent_of. simpl.
    destruct (find _ _) as [inc|]; simpl; [|intros []].
    intros H. apply in_app_or in H as [H|H];
      [now apply notify_out_reaches in H|].
    apply in_app_or in H as [H|H].
    + now apply responders_out_reaches in H.
    + now apply stats_out_reaches in H.
  - rewrite sent_of_express, post_incidents_resolve_run. unfold sent_of. simpl.
    intros H. apply in_app_or in H as [H|H].
    + now apply responders_out_reaches in H.
    + now apply stats_out_reaches in H.
Qed.

Lemma callbacks_write_to_registered_open_sockets_witness :
  In (8%nat, incident_accepted 1 2) (sent_by_event (http_accept 1 2 30) one_triggered) /\
  reaches one_triggered (8%nat, incident_accepted 1 2).
Proof.
  assert (H : In (8%nat, incident_accepted 1 2)
                 (sent_by_event (http_accept 1 2 30) one_triggered))
    by (left; reflexivity).
  split; [exact H|].
  exact (callbacks_write_to_registered_open_sockets _ _ _ H).
Defined.

Lemma after_message_auth ws u s :
  u <> 0 ->
  after_event (message_auth ws (Some u)) s =
    with_clients (with_userId s ws (Some u)) (map_set u ws (clients s)).
Proof. intros H. cbn [after_event]. now rewrite on_message_auth_run. Qed.

Lemma after_close ws u s :
  u <> 0 -> userId s ws = Some u ->
  after_event (close ws) s =
    with_clients (with_readyState s ws CLOSED) (map_delete u (clients s)).
Proof. intros H Hu. cbn [after_event]. now rewrite (on_close_run ws u s H Hu). Qed.

(** X15. A connection that authenticates as user [v] and later as another
    user [u] leaves a dead entry behind: its close removes the entry of [u]
    only, so the registry keeps mapping [v] to the closed socket, and a
    message for [v] is dropped. *)
Theorem reauthentication_leaves_dead_entry (s : Server) (ws : WebSocket)
    (u v : Z) :
  u <> 0 -> v <> 0 -> u <> v ->
  let s3 := after_events [message_auth ws (Some v); message_auth ws (Some u);
                          close ws] s in
  map_get u (clients s3) = None /\
  map_get v (clients s3) = Some ws /\
  readyState s3 ws = CLOSED /\
  forall m, sent_of (send_to v m s3) = [].
Proof.
  intros Hu Hv Hne s3. subst s3. unfold after_events. cbn [fold_left].
  rewrite (after_message_auth ws v s Hv).
  rewrite after_message_auth by exact Hu.
  rewrite (after_close ws u) by (try exact Hu; simpl; now rewrite Nat.eqb_refl).
  simpl.
  assert (Hget : map_get v (map_delete u (map_set u ws (map_set v ws (clients s))))
                 = Some ws).
  { rewrite map_get_delete_neq by exact Hne.
    rewrite map_get_set_neq by exact Hne. apply map_get_set_eq. }
  split; [apply map_get_delete_eq|]. split; [exact Hget|].
  split; [now rewrite Nat.eqb_refl|].
  intros m. rewrite send_to_run. unfold sent_of, delivered_to. simpl.
  now rewrite Hget, Nat.eqb_refl.
Qed.

Lemma reauthentication_leaves_dead_entry_witness :
  3 <> 0 /\ 2 <> 0 /\ 3 <> 2 /\
  let s3 := after_events [message_auth 5%nat (Some 2); message_auth 5%nat (Some 3);
                          close 5%nat] empty_registry in
  map_get 3 (clients s3) = None /\
  map_get 2 (clients s3) = Some 5%nat /\
  readyState s3 5%nat = CLOSED /\
  forall m, sent_of (send_to 2 m s3) = [].
Proof.
  assert (H3 : 3 <> 0) by discriminate.
  assert (H2 : 2 <> 0) by discriminate.
  assert (H32 : 3 <> 2) by discriminate.
  split; [exact H3|]. split; [exact H2|]. split; [exact H32|].
  exact (reauthentication_leaves_dead_entry empty_registry 5%nat 3 2 H3 H2 H32).
Defined.

Lemma failed_auth_keeps_registry ws decoded s :
  auth_fails decoded ->
  clients (after_event (message_auth ws decoded) s) = clients s /\
  (auth_fails (userId s ws) -> auth_fails (userId (after_event (message_auth ws decoded) s) ws)).
Proof.
  intros [->| ->]; simpl.
  - split; [reflexivity | auto].
  - split; [reflexivity|]. intros _. right. simpl. now rewrite Nat.eqb_refl.
Qed.

Lemma failed_auths_keep_registry ws fails :
  Forall auth_fails fails ->
  forall s, auth_fails (userId s ws) ->
    let s' := after_events (map (message_auth ws) fails) s in
    clients s' = clients s /\ auth_fails (userId s' ws).
Proof.
  induction 1 as [|d fails Hd _ IH]; intros s Hs; [split; [reflexivity | exact Hs]|].
  cbn [map after_events fold_left].
  destruct (failed_auth_keeps_registry ws d s Hd) as [Hc Hu].
  destruct (IH _ (Hu Hs)) as [Hc' Hu'].
  split; [|exact Hu']. unfold after_events in Hc'. now rewrite Hc'.
Qed.

Lemma after_events_app es1 es2 s :
  after_events (es1 ++ es2) s = after_events es2 (after_events es1 s).
Proof. unfold after_events. apply fold_left_app. Qed.

(** X16. A connection that never authenticates successfully (every token
    fails to verify or carries id 0) leaves the registry exactly as it was,
    from its connection through all its auth messages to its close. *)
Theorem unauthenticated_connection_leaves_no_trace (s : Server) (ws : WebSocket)
    (fails : list (option Z)) :
  Forall auth_fails fails ->
  clients (after_events (connection ws :: map (message_auth ws) fails ++ [close ws]) s)
  = clients s.
Proof.
  intros Hf.
  change (connection ws :: map (message_auth ws) fails ++ [close ws])
    with ([connection ws] ++ map (message_auth ws) fails ++ [close ws]).
  rewrite !after_events_app.
  set (s1 := after_events [connection ws] s).
  assert (H1 : clients s1 = clients s /\ auth_fails (userId s1 ws)).
  { subst s1. simpl. split; [reflexivity|]. left. now rewrite Nat.eqb_refl. }
  destruct H1 as [Hc1 Hu1].
  destruct (failed_auths_keep_registry ws fails Hf s1 Hu1) as [Hc2 Hu2].
  set (s2 := after_events (map (message_auth ws) fails) s1) in *.
  unfold after_events at 1. cbn [fold_left]. rewrite clients_after_event.
  rewrite <- Hc1, <- Hc2.
  destruct Hu2 as [-> | ->]; reflexivity.
Qed.

Lemma unauthenticated_connection_leaves_no_trace_witness :
  Forall auth_fails [None; Some 0; None] /\
  clients (after_events
             (connection 9%nat :: map (message_auth 9%nat) [None; Some 0; None]
              ++ [close 9%nat]) civilian_online)
  = clients civilian_online.
Proof.
  assert (H : Forall auth_fails [None; Some 0; None]).
  { constructor; [left; reflexivity|].
    constructor; [right; reflexivity|].
    constructor; [left; reflexivity | constructor]. }
  split; [exact H|].
  exact (unauthenticated_connection_leaves_no_trace civilian_online 9%nat _ H).
Defined.

(** ** Location updates *)

(** X17. Location updates of a connection that has not authenticated
    successfully are ignored: after its connection and any number of failed
    auth messages, a location_update stores nothing and is sent to nobody. *)
Theorem location_update_needs_authentication (t : Tracking) (ws : WebSocket)
    (fails : list (option Z)) (lat lng : Q) (now : Z) :
  Forall auth_fails fails ->
  let t' := mkTracking
              (after_events (connection ws :: map (message_auth ws) fails) (core t))
              (positions t) in
  on_message_location_update ws lat lng now t' = (t', []).
Proof.
  intros Hf t'.
  assert (Hu : auth_fails (userId (core t') ws)).
  { subst t'. cbn [core].
    change (connection ws :: map (message_auth ws) fails)
      with ([connection ws] ++ map (message_auth ws) fails).
    rewrite after_events_app.
    apply failed_auths_keep_registry; [exact Hf|].
    left. simpl. now rewrite Nat.eqb_refl. }
  unfold on_message_location_update.
  destruct Hu as [-> | ->]; reflexivity.
Qed.

Lemma location_update_needs_authentication_witness :
  Forall auth_fails [None; Some 0] /\
  let t' := mkTracking
              (after_events (connection 7%nat :: map (message_auth 7%nat) [None; Some 0])
                            (core tracked))
              (positions tracked) in
  on_message_location_update 7%nat (515 # 10) (-9 # 100) 40 t' = (t', []).
Proof.
  assert (H : Forall auth_fails [None; Some 0]).
  { constructor; [left; reflexivity|].
    constructor; [right; reflexivity | constructor]. }
  split; [exact H|].
  exact (location_update_needs_authentication tracked 7%nat _ _ _ 40 H).
Defined.

(** X18. A location update of an authenticated connection leaves the core
    state alone, stores the position with the current time for the sender
    (when the sender has a users row), and is sent exactly on the open
    sockets registered for users whose role is admin or command and whose
    id is not the sender's; the users' status plays no part. *)
Theorem location_update_goes_to_admins_and_command (t : Tracking)
    (ws : WebSocket) (sender : Z) (lat lng : Q) (now : Z) :
  userId (core t) ws = Some sender -> sender <> 0 ->
  let r := on_message_location_update ws lat lng now t in
  core (fst r) = core t /\
  (has_user sender (core t) = true ->
   map_get sender (positions (fst r)) = Some (mkPosition lat lng now)) /\
  forall w m,
    In (w, m) (snd r) <->
    m = user_location_update sender lat lng /\
    exists admin, In admin (db_users (core t)) /\
                  In (users.role admin) ["admin"; "command"] /\
                  users.id admin <> sender /\
                  map_get (users.id admin) (clients (core t)) = Some w /\
                  readyState (core t) w = OPEN.
Proof.
  intros Hu Hs r. subst r. unfold on_message_location_update.
  rewrite Hu, (id_truthy_true sender Hs). cbn [fst snd].
  assert (Hcore : core (sql_update_position sender lat lng now t) = core t).
  { unfold sql_update_position. now destruct (has_user sender (core t)). }
  rewrite Hcore. split; [reflexivity|]. split.
  { intros Hh. unfold sql_update_position. rewrite Hh. simpl.
    apply map_get_set_eq. }
  intros w m. rewrite in_flat_map. split.
  - intros (admin & Hin & Hd). apply filter_In in Hin as [Hin Hrole].
    destruct (map_get (users.id admin) (clients (core t))) as [c|] eqn:Hg;
      [|contradiction].
    destruct (is_open (readyState (core t) c)) eqn:Ho; [|contradiction].
    destruct (users.id admin =? sender) eqn:E; [contradiction|].
    simpl in Hd. destruct Hd as [[= <- <-]|[]].
    split; [reflexivity|]. exists admin.
    repeat split; try assumption.
    + now apply text_in_In.
    + now apply Z.eqb_neq.
    + destruct (readyState (core t) c); try discriminate. reflexivity.
  - intros (-> & admin & Hin & Hrole & Hne & Hg & Ho).
    exists admin. split.
    + apply filter_In. split; [assumption | now apply text_in_In].
    + rewrite Hg, Ho. apply Z.eqb_neq in Hne. rewrite Hne. now left.
Qed.

Lemma location_update_goes_to_admins_and_command_witness :
  userId (core tracked) 7%nat = Some 2 /\ 2 <> 0 /\
  let r := on_message_location_update 7%nat (515 # 10) (-9 # 100) 40 tracked in
  map_get 2 (positions (fst r)) = Some (mkPosition (515 # 10) (-9 # 100) 40) /\
  In (9%nat, user_location_update 2 (515 # 10) (-9 # 100)) (snd r).
Proof.
  assert (H2 : 2 <> 0) by discriminate.
  split; [reflexivity|]. split; [exact H2|].
  destruct (location_update_goes_to_admins_and_command tracked 7%nat 2
              (515 # 10) (-9 # 100) 40 eq_refl H2) as (_ & Hpos & Hout).
  split; [exact (Hpos eq_refl)|].
  apply (proj2 (Hout 9%nat (user_location_update 2 (515 # 10) (-9 # 100)))).
  split; [reflexivity|].
  exists (users.mk 1 "admin" "active"). simpl. repeat split; auto; discriminate.
Defined.

(** ** The dashboard's list of incidents *)

Lemma replace_keeps_ids x prev :
  Inbox.ids (map (fun i => if Inbox.same_id i x then x else i) prev) = Inbox.ids prev.
Proof.
  unfold Inbox.ids. rewrite map_map. apply map_ext. intros i.
  unfold Inbox.same_id. destruct (App.incident_id i =? App.incident_id x) eqn:E.
  - apply Z.eqb_eq in E. now symmetry.
  - reflexivity.
Qed.

Lemma find_same_id_absent x prev :
  find (fun i => Inbox.same_id i x) prev = None ->
  ~ In (App.incident_id x) (Inbox.ids prev).
Proof.
  induction prev as [|i prev IH]; simpl; [tauto|].
  unfold Inbox.same_id at 1. destruct (App.incident_id i =? App.incident_id x) eqn:E;
    [discriminate|].
  apply Z.eqb_neq in E. intros H [Hi|Hin]; [contradiction | now apply IH].
Qed.

Lemma NoDup_map_filter {A B} (f : A -> B) (p : A -> bool) l :
  NoDup (map f l) -> NoDup (map f (filter p l)).
Proof.
  induction l as [|x l IH]; simpl; intros H; [constructor|].
  apply NoDup_cons_iff in H as [Hx Hl].
  destruct (p x); simpl; [|now apply IH].
  constructor; [|now apply IH].
  intros Hin. apply Hx. apply in_map_iff in Hin as (y & Hy & Hin).
  apply filter_In in Hin as [Hin _]. rewrite <- Hy. now apply in_map.
Qed.

(** X19. The dashboard never lists an incident twice: if the ids in its list
    are pairwise different, they still are after the update that a server
    message requests (new_incident adds only an id that is not listed,
    incident_updated keeps the ids as they are); and a refresh from a table
    with unique ids gives a list with unique ids. *)
Theorem inbox_ids_stay_unique (m : Message) (prev prev' : list App.Incident)
    (s : Server) :
  NoDup (Inbox.ids prev) ->
  Inbox.onmessage m prev = Return prev' ->
  NoDup (incident_ids s) ->
  NoDup (Inbox.ids prev') /\ NoDup (Inbox.ids (Refresh.fetchIncidents s)).
Proof.
  intros Hnd H Hs. split.
  - destruct m as [id ty la ln sev lang st cr|iid rid|inc|stt]; simpl in H.
    + injection H as <-. unfold Inbox.add_incident.
      destruct (find _ prev) eqn:E; [exact Hnd|].
      simpl. constructor; [|exact Hnd].
      now apply (find_same_id_absent (Inbox.of_new_incident id st)).
    + now injection H as <-.
    + destruct inc as [r|]; simpl in H.
      * injection H as <-. now rewrite replace_keeps_ids.
      * destruct prev; [injection H as <-; constructor | discriminate].
    + now injection H as <-.
  - unfold Refresh.fetchIncidents, get_incidents_active, select_incidents,
      result_of, Inbox.ids. cbn [fst]. rewrite map_map.
    change (fun x => App.incident_id (Inbox.of_row x)) with incidents.id.
    now apply NoDup_map_filter.
Qed.

Lemma inbox_ids_stay_unique_witness :
  NoDup (Inbox.ids (App.incidents doctor_dashboard)) /\
  Inbox.onmessage (new_incident 2 (JsString "SOS") (JsNumber (515 # 10))
                     (JsNumber (-9 # 100)) (JsString "critical") (JsString "en")
                     "triggered" 5)
                  (App.incidents doctor_dashboard)
    = Return (Inbox.of_new_incident 2 "triggered" :: App.incidents doctor_dashboard) /\
  NoDup (incident_ids two_due) /\
  NoDup (Inbox.ids (Inbox.of_new_incident 2 "triggered"
                    :: App.incidents doctor_dashboard)) /\
  NoDup (Inbox.ids (Refresh.fetchIncidents two_due)).
Proof.
  assert (H : NoDup (Inbox.ids (App.incidents doctor_dashboard)))
    by (repeat constructor; simpl; tauto).
  assert (Hs : NoDup (incident_ids two_due))
    by (repeat constructor; simpl; intuition discriminate).
  split; [exact H|]. split; [reflexivity|]. split; [exact Hs|].
  exact (inbox_ids_stay_unique
           (new_incident 2 (JsString "SOS") (JsNumber (515 # 10))
              (JsNumber (-9 # 100)) (JsString "critical") (JsString "en")
              "triggered" 5)
           (App.incidents doctor_dashboard)
           (Inbox.of_new_incident 2 "triggered" :: App.incidents doctor_dashboard)
           two_due H eq_refl Hs).
Defined.

Lemma replace_unlisted x prev :
  ~ In (App.incident_id x) (Inbox.ids prev) ->
  map (fun i => if Inbox.same_id i x then x else i) prev = prev.
Proof.
  induction prev as [|i prev IH]; simpl; [reflexivity|].
  intros H. unfold Inbox.same_id at 1.
  destruct (App.incident_id i =? App.incident_id x) eqn:E.
  - apply Z.eqb_eq in E. elim H. now left.
  - rewrite IH; [reflexivity|]. intros Hin. apply H. now right.
Qed.

(** X20. An incident_updated message never makes the dashboard learn of an
    incident: the ids in the list and their order stay the same, and an
    update for an incident that is not listed leaves the list as it was. *)
Theorem update_for_unlisted_incident_is_dropped (r : incidents.row)
    (prev : list App.Incident) :
  exists prev',
    Inbox.onmessage (incident_updated (Some r)) prev = Return prev' /\
    Inbox.ids prev' = Inbox.ids prev /\
    (~ In (incidents.id r) (Inbox.ids prev) -> prev' = prev).
Proof.
  eexists. split; [reflexivity|]. split; [apply replace_keeps_ids|].
  intros H. now apply replace_unlisted.
Qed.

(** X21. The incident_updated message that a resolve request for an unknown
    id broadcasts carries no incident, and the update it requests on a
    dashboard whose list is not empty throws a TypeError. *)
Theorem resolve_of_unknown_id_breaks_listing (s : Server) (id now : Z)
    (userId : JsValue) (d : Delivery) (x : App.Incident)
    (prev : list App.Incident) :
  find (has_id id) (db_incidents s) = None ->
  In d (sent_by_event (http_resolve id userId now) s) ->
  is_stats_update d = false ->
  snd d = incident_updated None /\
  Inbox.onmessage (snd d) (x :: prev) =
    Throw (TypeError "Cannot read properties of undefined (reading 'id')").
Proof.
  intros Hnone Hin Hns.
  assert (Hd : snd d = incident_updated None).
  { simpl in Hin. rewrite sent_of_express, post_incidents_resolve_run in Hin.
    rewrite (after_update_unknown s id _ Hnone), Hnone in Hin.
    unfold sent_of in Hin. simpl in Hin. apply in_app_or in Hin as [Hin|Hin].
    - now apply responders_out_in in Hin as [Hm _].
    - unfold stats_out in Hin. apply in_map_iff in Hin as (e & <- & _).
      discriminate Hns. }
  split; [exact Hd|]. now rewrite Hd.
Qed.

Lemma resolve_of_unknown_id_breaks_listing_witness :
  find (has_id 9) (db_incidents two_due) = None /\
  In (7%nat, incident_updated None)
     (sent_by_event (http_resolve 9 (js_int 3) 20) two_due) /\
  Inbox.onmessage (incident_updated None) (App.incidents doctor_dashboard) =
    Throw (TypeError "Cannot read properties of undefined (reading 'id')").
Proof.
  assert (Hin : In (7%nat, incident_updated None)
                   (sent_by_event (http_resolve 9 (js_int 3) 20) two_due))
    by (left; reflexivity).
  split; [reflexivity|]. split; [exact Hin|].
  exact (proj2 (resolve_of_unknown_id_breaks_listing two_due 9 20 (js_int 3)
                  (7%nat, incident_updated None)
                  (App.mkIncident 1 "triggered" (js_int 4) JsNull) []
                  eq_refl Hin eq_refl)).
Defined.

(** ** The dashboard's accept and resolve *)

(** X22. The dashboard lets only doctors, police and volunteers accept: for
    any other user (civilian, command, admin, or nobody logged in)
    [acceptIncident] shows the error toast and sends no request, so the
    server state is unchanged and nothing is broadcast. *)
Theorem acceptIncident_rejects_other_roles (c : App.State) (id now : Z)
    (s : Server) :
  (forall u, App.user c = Some u ->
             ~ In (App.role u) ["doctor"; "police"; "volunteer"]) ->
  App.acceptIncident c id now s =
    ([App.addToast "Only responders can accept dispatches." "error"], s, []).
Proof.
  intros H. unfold App.acceptIncident, App.may_accept.
  destruct (App.user c) as [u|]; [|reflexivity].
  destruct (text_in (App.role u) ["doctor"; "police"; "volunteer"]) eqn:E;
    [|reflexivity].
  apply text_in_In in E. now elim (H u eq_refl).
Qed.

Lemma acceptIncident_rejects_other_roles_witness :
  (forall u, App.user admin_dashboard = Some u ->
             ~ In (App.role u) ["doctor"; "police"; "volunteer"]) /\
  App.acceptIncident admin_dashboard 1 30 one_triggered =
    ([App.addToast "Only responders can accept dispatches." "error"],
     one_triggered, []).
Proof.
  assert (H : forall u, App.user admin_dashboard = Some u ->
                        ~ In (App.role u) ["doctor"; "police"; "volunteer"]).
  { intros u [= <-]. simpl. intuition discriminate. }
  split; [exact H|].
  exact (acceptIncident_rejects_other_roles admin_dashboard 1 30 one_triggered H).
Defined.

Lemma find_after_replace x prev :
  In (App.incident_id x) (Inbox.ids prev) ->
  find (fun i => App.incident_id i =? App.incident_id x)
       (map (fun i => if Inbox.same_id i x then x else i) prev)
  = Some x.
Proof.
  induction prev as [|i prev IH]; [contradiction|].
  intros H. cbn [map find]. destruct (Inbox.same_id i x) eqn:E.
  - now rewrite Z.eqb_refl.
  - unfold Inbox.same_id in E. rewrite E. apply IH.
    destruct H as [H|H]; [|exact H].
    apply Z.eqb_neq in E. contradiction.
Qed.

Lemma find_listed_after_replace id x prev :
  App.incident_id x = id -> In id (Inbox.ids prev) ->
  find (fun i => App.incident_id i =? id)
       (map (fun i => if Inbox.same_id i x then x else i) prev)
  = Some x.
Proof. intros <-. apply find_after_replace. Qed.

Lemma find_has_id_id id rows r : find (has_id id) rows = Some r -> incidents.id r = id.
Proof.
  intros H. apply find_some in H as [_ H]. now apply Z.eqb_eq in H.
Qed.

Lemma strict_eq_js_int z : strict_eq (js_int z) (js_int z) = true.
Proof. unfold strict_eq, js_int. apply Qeq_bool_iff. reflexivity. Qed.

(** X23. Accept and resolve compose through the dashboard: when a doctor,
    police officer or volunteer whose id is that of a row of [users]
    accepts a listed, existing incident, the server stores them as
    responder; every incident_updated message of that
    accept carries the accepted row; and once the dashboard has applied it,
    the same user's [resolveIncident] passes the owner check, the request is
    sent and the incident ends 'resolved' with that responder. *)
Theorem accepting_responder_can_resolve (c : App.State) (u : App.User)
    (id now now' : Z) (s : Server) (r0 : incidents.row) :
  App.user c = Some u ->
  In (App.role u) ["doctor"; "police"; "volunteer"] ->
  has_user (App.id u) s = true ->
  find (has_id id) (db_incidents s) = Some r0 ->
  In id (Inbox.ids (App.incidents c)) ->
  let accepted := App.acceptIncident c id now s in
  let row1 := incidents.set_accepted (App.id u) now r0 in
  (forall d inc, In d (sent_of accepted) -> snd d = incident_updated inc ->
                 inc = Some row1) /\
  exists listed,
    Inbox.onmessage (incident_updated (Some row1)) (App.incidents c)
      = Return listed /\
    let resolved := App.resolveIncident (App.mkState (Some u) listed) id now'
                                        (server_of accepted) in
    result_of resolved =
      [App.addToast "Incident marked as resolved." "success";
       App.fetchIncidents; App.fetchStats] /\
    find (has_id id) (db_incidents (server_of resolved))
      = Some (incidents.set_status "resolved" now' row1).
Proof.
  intros Hu Hrole Huser Hfind Hlisted accepted row1.
  pose proof (find_has_id_id _ _ _ Hfind) as Hid.
  assert (Hacc : accepted =
    ([App.addToast "Incident accepted. Proceed to location." "success";
      App.fetchIncidents],
     after_update s (has_id id) (incidents.set_accepted (App.id u) now),
     notify_out (after_update s (has_id id) (incidents.set_accepted (App.id u) now))
                (incidents.reporter_id row1) (incident_accepted id (App.id u))
     ++ responders_out (after_update s (has_id id)
                          (incidents.set_accepted (App.id u) now))
                       (incident_updated (Some row1))
     ++ stats_out (after_update s (has_id id)
                     (incidents.set_accepted (App.id u) now)) now)).
  { subst accepted. unfold App.acceptIncident, App.may_accept. rewrite Hu.
    apply text_in_In in Hrole. rewrite Hrole.
    unfold express. rewrite post_incidents_accept_run by (now rewrite Huser).
    unfold after_update at 1. cbn [db_incidents with_incidents].
    rewrite find_after_update by reflexivity. rewrite Hfind. reflexivity. }
  split.
  { rewrite Hacc. unfold sent_of. cbn [snd]. intros d inc Hin Hd.
    apply in_app_or in Hin as [Hin|Hin].
    - destruct (incidents.reporter_id row1) as [rep|]; [|contradiction].
      apply delivered_to_in in Hin as [Hm _]. congruence.
    - apply in_app_or in Hin as [Hin|Hin].
      + apply responders_out_in in Hin as [Hm _]. congruence.
      + unfold stats_out in Hin. apply in_map_iff in Hin as (e & <- & _).
        discriminate Hd. }
  eexists. split; [reflexivity|].
  set (s1 := after_update s (has_id id) (incidents.set_accepted (App.id u) now)).
  assert (Hs1 : server_of accepted = s1) by (rewrite Hacc; reflexivity).
  rewrite Hs1. cbv zeta.
  assert (Hidx : App.incident_id (Inbox.of_row row1) = id) by exact Hid.
  unfold App.resolveIncident. cbn [App.incidents App.user].
  rewrite (find_listed_after_replace id (Inbox.of_row row1) _ Hidx Hlisted).
  unfold App.field, App.user_id. cbn [App.user App.responder_id Inbox.of_row].
  cbn [incidents.responder_id row1 incidents.set_accepted js_opt_int].
  rewrite strict_eq_js_int. cbn [negb andb].
  unfold express. rewrite post_incidents_resolve_run.
  change (ok (mkResponse 200 (Some json_status_ok))) with true.
  unfold result_of, server_of. cbn [fst snd].
  split; [reflexivity|].
  unfold after_update at 1. cbn [db_incidents with_incidents].
  rewrite find_after_update by reflexivity.
  subst s1. unfold after_update. cbn [db_incidents with_incidents].
  rewrite find_after_update by reflexivity. now rewrite Hfind.
Qed.

Lemma accepting_responder_can_resolve_witness :
  App.user doctor_dashboard = Some (App.mkUser 2 "doctor") /\
  In "doctor" ["doctor"; "police"; "volunteer"] /\
  has_user 2 one_triggered = true /\
  find (has_id 1) (db_incidents one_triggered)
    = Some (sample_incident 1 "triggered" None 0) /\
  In 1 (Inbox.ids (App.incidents doctor_dashboard)) /\
  exists listed,
    Inbox.onmessage
      (incident_updated
         (Some (incidents.set_accepted 2 30 (sample_incident 1 "triggered" None 0))))
      (App.incidents doctor_dashboard) = Return listed /\
    find (has_id 1)
         (db_incidents
            (server_of
               (App.resolveIncident (App.mkState (Some (App.mkUser 2 "doctor")) listed)
                  1 60 (server_of (App.acceptIncident doctor_dashboard 1 30 one_triggered)))))
    = Some (incidents.set_status "resolved" 60
              (incidents.set_accepted 2 30 (sample_incident 1 "triggered" None 0))).
Proof.
  assert (Hrole : In "doctor" ["doctor"; "police"; "volunteer"]) by (left; reflexivity).
  assert (Hl : In 1 (Inbox.ids (App.incidents doctor_dashboard))) by (left; reflexivity).
  split; [reflexivity|]. split; [exact Hrole|]. split; [reflexivity|].
  split; [reflexivity|]. split; [exact Hl|].
  destruct (accepting_responder_can_resolve doctor_dashboard (App.mkUser 2 "doctor")
              1 30 60 one_triggered (sample_incident 1 "triggered" None 0)
              eq_refl Hrole eq_refl eq_refl Hl) as (_ & listed & Hmsg & _ & Hfound).
  exists listed. split; [exact Hmsg | exact Hfound].
Defined.

(** ** What only an accept can change *)

Lemma row_without_accept e s i r :
  nth_error (db_incidents s) i = Some r ->
  (forall responderId now, e <> http_accept (incidents.id r) responderId now) ->
  exists r', nth_error (db_incidents (after_event e s)) i = Some r' /\
             incidents.id r' = incidents.id r /\
             incidents.responder_id r' = incidents.responder_id r /\
             (incidents.status r = "resolved" -> incidents.status r' = "resolved").
Proof.
  intros Hi He. rewrite db_incidents_after_event.
  assert (Hsame : exists r', nth_error (db_incidents s) i = Some r' /\
             incidents.id r' = incidents.id r /\
             incidents.responder_id r' = incidents.responder_id r /\
             (incidents.status r = "resolved" -> incidents.status r' = "resolved"))
    by (exists r; auto).
  destruct e as [ws|ws d|ws|now|b now|id rid now|id u now]; try exact Hsame.
  - exists (tick_row now r). rewrite nth_error_map, Hi.
    split; [reflexivity|]. split; [apply tick_row_id|]. split.
    + unfold tick_row, tier2_row, tier3_row, tier4_row, apply_where.
      repeat match goal with |- context [if ?b then _ else _] => destruct b end;
        reflexivity.
    + intros Hst. rewrite tick_row_settled; [exact Hst|].
      rewrite Hst. simpl. tauto.
  - destruct (can_insert _ _); [|exact Hsame].
    exists r. rewrite nth_error_app1 by (apply nth_error_Some; congruence). auto.
  - destruct (_ || _); [|exact Hsame].
    exists r. rewrite nth_error_map, Hi. simpl.
    assert (E : has_id id r = false).
    { unfold has_id. apply Z.eqb_neq. intros <-. now apply (He rid now). }
    unfold apply_where. rewrite E. auto.
  - exists (apply_where (has_id id) (incidents.set_status "resolved" now) r).
    rewrite nth_error_map, Hi. split; [reflexivity|].
    unfold apply_where. destruct (has_id id r); auto.
Qed.

(** X24. Only an accept request for the incident touches its responder or
    reopens it: through any sequence of callbacks that contains no accept
    for that id, the incident keeps its [responder_id], and if it was
    'resolved' it stays 'resolved'. *)
Theorem only_accept_assigns_responder (es : list Event) (s : Server) (i : nat)
    (r : incidents.row) :
  nth_error (db_incidents s) i = Some r ->
  Forall (fun e => forall responderId now,
                     e <> http_accept (incidents.id r) responderId now) es ->
  exists r', nth_error (db_incidents (after_events es s)) i = Some r' /\
             incidents.responder_id r' = incidents.responder_id r /\
             (incidents.status r = "resolved" -> incidents.status r' = "resolved").
Proof.
  intros Hi Hes. revert s r Hi Hes.
  induction es as [|e es IH]; intros s r Hi Hes.
  - exists r. auto.
  - apply Forall_cons_iff in Hes as [He Hes].
    destruct (row_without_accept e s i r Hi He) as (r1 & H1 & Hid & Hresp & Hst).
    rewrite <- Hid in Hes.
    destruct (IH _ _ H1 Hes) as (r2 & H2 & Hresp2 & Hst2).
    exists r2. split; [exact H2|]. split; [congruence | auto].
Qed.

Lemma only_accept_assigns_responder_witness :
  nth_error (db_incidents resolved_once) 0
    = Some (sample_incident 1 "resolved" (Some 2) 0) /\
  Forall (fun e => forall responderId now,
                     e <> http_accept 1 responderId now)
         [tick (same_second 70); http_resolve 1 (js_int 3) 80; http_accept 5 3 90;
          http_create sos_body 95] /\
  exists r',
    nth_error (db_incidents
                 (after_events [tick (same_second 70); http_resolve 1 (js_int 3) 80;
                                http_accept 5 3 90; http_create sos_body 95]
                               resolved_once)) 0 = Some r' /\
    incidents.responder_id r' = Some 2 /\
    ("resolved" = "resolved" -> incidents.status r' = "resolved").
Proof.
  assert (H : Forall (fun e => forall responderId now,
                                 e <> http_accept 1 responderId now)
                [tick (same_second 70); http_resolve 1 (js_int 3) 80; http_accept 5 3 90;
                 http_create sos_body 95])
    by (repeat constructor; intros rid now E; discriminate E).
  split; [reflexivity|]. split; [exact H|].
  exact (only_accept_assigns_responder _ resolved_once 0
           (sample_incident 1 "resolved" (Some 2) 0) eq_refl H).
Defined.

(** ** An SOS from the dashboard *)

(** X25. Every SOS sent from the dashboard with a position, by a user whose
    id is that of a row of [users] (a rowid being left), ends in the failure
    alert although the server has stored the incident: the create request
    is answered 500, so the dashboard clears its dispatching flag and shows
    'Failed to trigger SOS', no responder is notified, and the new
    'triggered' row is in the table. Without a position nothing reaches the
    server. *)
Theorem sos_reports_failure_but_is_stored (u : App.User) (type : string)
    (latitude longitude : Q) (now : Z) (s : Server) :
  has_user (App.id u) s = true ->
  Z.max (incidents_seq s) (max_rowid (db_incidents s)) < rowid_limit ->
  let r := Sos.triggerSOS u type (Some (latitude, longitude)) now s in
  result_of r =
    [Sos.setIsDispatching true; Sos.setIsDispatching false;
     Sos.alert "Failed to trigger SOS. Please try again or call emergency services directly."] /\
  sent_of r = [] /\
  db_incidents (server_of r) =
    db_incidents s ++
    [incidents.mk (next_rowid s) type "triggered" "critical" latitude longitude
                  (Some (App.id u)) None now now] /\
  Sos.triggerSOS u type None now s =
    ([Sos.setIsDispatching true; Sos.setIsDispatching false;
      Sos.alert "Location access is required for SOS. Please enable GPS."],
     s, []).
Proof.
  intros Hu Hrowid r. subst r. unfold Sos.triggerSOS, express.
  rewrite post_incidents_run by (now apply can_insert_true).
  repeat split.
Qed.

Lemma sos_reports_failure_but_is_stored_witness :
  has_user 4 two_due = true /\
  Z.max (incidents_seq two_due) (max_rowid (db_incidents two_due)) < rowid_limit /\
  let r := Sos.triggerSOS (App.mkUser 4 "civilian") "SOS"
                          (Some (515 # 10, -9 # 100)) 5 two_due in
  result_of r =
    [Sos.setIsDispatching true; Sos.setIsDispatching false;
     Sos.alert "Failed to trigger SOS. Please try again or call emergency services directly."] /\
  sent_of r = [] /\
  db_incidents (server_of r) =
    db_incidents two_due ++
    [incidents.mk 3 "SOS" "triggered" "critical" (515 # 10) (-9 # 100)
                  (Some 4) None 5 5] /\
  Sos.triggerSOS (App.mkUser 4 "civilian") "SOS" None 5 two_due =
    ([Sos.setIsDispatching true; Sos.setIsDispatching false;
      Sos.alert "Location access is required for SOS. Please enable GPS."],
     two_due, []).
Proof.
  split; [reflexivity|]. split; [reflexivity|].
  exact (sos_reports_failure_but_is_stored (App.mkUser 4 "civilian") "SOS"
           (515 # 10) (-9 # 100) 5 two_due eq_refl eq_refl).
Defined.

(** An SOS of a user that the [users] table does not hold: the same alert,
    and nothing is stored. *)
Example sos_of_unknown_user :
  Sos.triggerSOS (App.mkUser 99 "civilian") "SOS" (Some (515 # 10, -9 # 100)) 5 two_due
  = ([Sos.setIsDispatching true; Sos.setIsDispatching false;
      Sos.alert "Failed to trigger SOS. Please try again or call emergency services directly."],
     two_due, []).
Proof. vm_compute. reflexivity. Qed.

(** ** The owner check after a refresh *)

Lemma strict_eq_opt_int o z : strict_eq (js_opt_int o) (js_int z) = opt_is o z.
Proof.
  destruct o as [x|]; [|reflexivity]. simpl. unfold js_int. simpl.
  destruct (x =? z) eqn:E.
  - apply Z.eqb_eq in E. subst. apply Qeq_bool_iff. reflexivity.
  - apply Z.eqb_neq in E. destruct (Qeq_bool (inject_Z x) (inject_Z z)) eqn:Q;
      [|reflexivity].
    apply Qeq_bool_iff in Q. unfold Qeq in Q. simpl in Q. lia.
Qed.

Lemma find_of_row id rows :
  find (fun i => App.incident_id i =? id) (map Inbox.of_row rows)
  = option_map Inbox.of_row (find (has_id id) rows).
Proof.
  induction rows as [|r rows IH]; simpl; [reflexivity|].
  unfold has_id at 1. destruct (incidents.id r =? id); [reflexivity | exact IH].
Qed.

(** X26. Right after the dashboard has refreshed its list, its owner check
    is the server's truth: a logged-in user who is not admin gets the
    rejection toast (and nothing is sent) unless the incident is in the
    server's active list with that user as responder or reporter; in that
    case the request goes out and has the effect of a resolve request. *)
Theorem resolve_after_refresh_checks_server_row (u : App.User) (id now : Z)
    (s : Server) :
  App.role u <> "admin" ->
  let c := App.mkState (Some u) (Refresh.fetchIncidents s) in
  let row := find (has_id id) (filter is_active_status (db_incidents s)) in
  App.resolveIncident c id now s =
    if owner_of (App.id u) row
    then ([App.addToast "Incident marked as resolved." "success";
           App.fetchIncidents; App.fetchStats],
          after_event (http_resolve id (js_int (App.id u)) now) s,
          sent_by_event (http_resolve id (js_int (App.id u)) now) s)
    else (rejection, s, []).
Proof.
  intros Hrole c row. subst c row.
  unfold App.resolveIncident, Refresh.fetchIncidents, get_incidents_active,
    select_incidents, result_of.
  cbn [fst App.incidents App.user]. rewrite find_of_row.
  unfold App.user_id, App.not_admin. cbn [App.user].
  apply String.eqb_neq in Hrole. rewrite Hrole. cbn [negb].
  destruct (find (has_id id) (filter is_active_status (db_incidents s))) as [r|].
  - cbn [option_map App.field Inbox.of_row App.responder_id App.reporter_id owner_of].
    rewrite !strict_eq_opt_int.
    destruct (opt_is (incidents.responder_id r) (App.id u)),
             (opt_is (incidents.reporter_id r) (App.id u)); cbn [negb andb orb];
      try reflexivity;
      cbn [after_event sent_by_event];
      rewrite server_of_express, sent_of_express;
      unfold express; rewrite post_incidents_resolve_run; reflexivity.
  - reflexivity.
Qed.

Lemma resolve_after_refresh_checks_server_row_witness :
  "police" <> "admin" /\
  App.resolveIncident
    (App.mkState (Some (App.mkUser 3 "police")) (Refresh.fetchIncidents accepted_once))
    1 50 accepted_once
  = (rejection, accepted_once, []).
Proof.
  assert (H : "police" <> "admin") by discriminate.
  split; [exact H|].
  exact (resolve_after_refresh_checks_server_row (App.mkUser 3 "police") 1 50
           accepted_once H).
Defined.
